(** * crtomo.configManager: a shallow embedding of [ConfigManager]

    The development follows [lib/crtomo/configManager.py].  The instance
    attributes become a record, every method becomes a computation in a
    state-and-exception monad over that record, and the few numpy
    primitives the methods rely on are given list models in [Module Np].

    Conventions.
    - An N x 4 configuration array is a [list row], a row being the
      tuple (A, B, M, N).  Electrode numbers are integers ([Z]); the
      float arrays produced by the loaders hold integral values only.
    - Measurement values are never computed with, only copied; they
      are rationals ([Q]).  The two float expressions of
      [gen_schlumberger] are evaluated exactly over [Q]; Python agrees
      with that for electrode numbers far beyond practical ranges.
    - The [metadata] dict is never read or written by the methods below
      and is left out of the record. *)

From Stdlib Require Import ZArith QArith Qround Lia.
From stdpp Require Import base tactics option list list_numbers gmap sorting.

Local Open Scope Z_scope.

(** ** Data model *)

(** One four-point configuration (A, B, M, N). *)
Definition row : Type := Z * Z * Z * Z.

Definition col0 (r : row) : Z := r.1.1.1.
Definition col1 (r : row) : Z := r.1.1.2.
Definition col2 (r : row) : Z := r.1.2.
Definition col3 (r : row) : Z := r.2.

(** A row of an output array that may hold [np.ones(4) * np.nan]. *)
Inductive orow : Type :=
  | Row (r : row)
  | NaNRow.

(** A two-dimensional float array of shape ([length datasets],
    [shape1]); the second dimension is recorded because the rows do not
    determine it when there are none. *)
Record array2d : Type := mkArray2d {
  shape1 : nat;
  datasets : list (list Q)
}.

Definition shape0 (a : array2d) : nat := length (datasets a).

(** What [add_measurements] accepts: a 1-D or a 2-D array. *)
Inductive ndarray : Type :=
  | Array1 (v : list Q)
  | Array2 (a : array2d).

(** The value returned by [add_measurements]: one id, or a list. *)
Inductive ids : Type :=
  | One (cid : Z)
  | Many (cids : list Z).

(** Attributes of a [ConfigManager] instance. *)
Record ConfigManager : Type := mkConfigManager {
  configs : option (list row);
  measurements : gmap Z (list Q);
  meas_counter : Z;
  nr_electrodes : option Z
}.

(** [ConfigManager.__init__] *)
Definition __init__ (nr_of_electrodes : option Z) : ConfigManager :=
  {| configs := None;
     measurements := ∅;
     meas_counter := - 1;
     nr_electrodes := nr_of_electrodes |}.

Definition set_configs (c : list row) (self : ConfigManager) : ConfigManager :=
  {| configs := Some c;
     measurements := measurements self;
     meas_counter := meas_counter self;
     nr_electrodes := nr_electrodes self |}.

Definition set_meas_counter (k : Z) (self : ConfigManager) : ConfigManager :=
  {| configs := configs self;
     measurements := measurements self;
     meas_counter := k;
     nr_electrodes := nr_electrodes self |}.

Definition set_measurement (cid : Z) (d : list Q) (self : ConfigManager)
  : ConfigManager :=
  {| configs := configs self;
     measurements := <[cid := d]> (measurements self);
     meas_counter := meas_counter self;
     nr_electrodes := nr_electrodes self |}.

(** ** Exceptions and the method monad *)

Inductive exn : Type :=
  | NoConfigurations      (* 'must read in configuration before ...' *)
  | MeasurementMismatch   (* 'Number of measurements does not match ...' *)
  | CountMismatch         (* 'indicated number of measurements does not equal ...' *)
  | ConfigMismatch        (* 'previously stored configurations do not match ...' *)
  | IndexError
  | TypeError
  | AttributeError
  | OverflowError.

Inductive outcome (A : Type) : Type :=
  | Ok (a : A)
  | Raise (e : exn).
Arguments Ok {A} a.
Arguments Raise {A} e.

(** A method run: the outcome together with the instance as it is when
    the method returns or when the exception leaves it. *)
Definition method (A : Type) : Type :=
  ConfigManager → outcome A * ConfigManager.

Global Instance method_ret : MRet method := λ A a self, (Ok a, self).
Global Instance method_bind : MBind method := λ A B f m self,
  match m self with
  | (Ok a, self') => f a self'
  | (Raise e, self') => (Raise e, self')
  end.

Definition raise {A} (e : exn) : method A := λ self, (Raise e, self).
Definition get_self : method ConfigManager := λ self, (Ok self, self).
Definition modify_self (f : ConfigManager → ConfigManager) : method unit :=
  λ self, (Ok tt, f self).

(** ** numpy primitives *)

Module Np.

(** [range(lo, hi)] *)
Definition range (lo hi : Z) : list Z := seqZ lo (hi - lo).

(** Python's [int(x)] on a float: truncation towards zero. *)
Definition int (x : Q) : Z :=
  if Qle_bool 0 x then Qfloor x else Qceiling x.

(** [np.where(mask)[0]]: the positions holding [True], ascending. *)
Fixpoint where_from (i : nat) (mask : list bool) : list nat :=
  match mask with
  | [] => []
  | b :: mask' =>
      if b then i :: where_from (S i) mask' else where_from (S i) mask'
  end.
Definition where_ (mask : list bool) : list nat := where_from 0 mask.

(** [np.atleast_2d]: a 1-D array of length n becomes 1 x n. *)
Definition atleast_2d (a : ndarray) : array2d :=
  match a with
  | Array1 v => mkArray2d (length v) [v]
  | Array2 a => a
  end.

(** [a.T]: row [j] of the result is column [j] of [a]. *)
Definition column (j : nat) (a : array2d) : list Q :=
  (λ r, nth j r 0%Q) <$> datasets a.

Definition T (a : array2d) : array2d :=
  mkArray2d (shape0 a) ((λ j, column j a) <$> seq 0 (shape1 a)).

(** Lexicographic order on rows, the order in which [sort] puts the
    records of a structured array with four fields. *)
Definition row_le (x y : row) : Prop :=
  col0 x < col0 y ∨ (col0 x = col0 y ∧
    (col1 x < col1 y ∨ (col1 x = col1 y ∧
      (col2 x < col2 y ∨ (col2 x = col2 y ∧ col3 x ≤ col3 y))))).

Global Instance row_le_dec (x y : row) : Decision (row_le x y).
Proof. unfold row_le. apply _. Defined.

(** [aux[mask]] with [mask[i] = (aux[i] != aux[i-1])] from position 1
    on: drop every element equal to its predecessor. *)
Fixpoint drop_repeats (prev : row) (aux : list row) : list row :=
  match aux with
  | [] => []
  | x :: aux' =>
      if decide (x = prev) then drop_repeats x aux'
      else x :: drop_repeats x aux'
  end.

(** [np.unique] of the structured view: sort, then keep the first
    element and every element that differs from its predecessor. *)
Definition unique (c : list row) : list row :=
  match merge_sort row_le c with
  | [] => []
  | x :: aux => x :: drop_repeats x aux
  end.

(** [np.sort(c[:, 0:2], axis=1)] stacked with
    [np.sort(c[:, 2:4], axis=1)], one row. *)
Definition sort_halves (r : row) : row :=
  (Z.min (col0 r) (col1 r), Z.max (col0 r) (col1 r),
   Z.min (col2 r) (col3 r), Z.max (col2 r) (col3 r)).

(** The array [np.loadtxt] returns for a text table with [ncols]
    columns: with the default [ndmin=0] a table of one row is squeezed
    to a 1-D array of length [ncols], and an empty table is a 1-D
    array of length 0. *)
Inductive loaded (A : Type) : Type :=
  | Loaded1 (len : nat)
  | Loaded2 (rows : list A).
Arguments Loaded1 {A} len.
Arguments Loaded2 {A} rows.

Definition loadtxt {A} (ncols : nat) (rows : list A) : loaded A :=
  match rows with
  | [] => Loaded1 0
  | [_] => Loaded1 ncols
  | _ => Loaded2 rows
  end.

Definition loaded_shape0 {A} (t : loaded A) : nat :=
  match t with
  | Loaded1 len => len
  | Loaded2 rows => length rows
  end.

(** [np.all(x == y)] on two K x 4 arrays.  Equal row counts compare
    row by row; a single row is broadcast against the other array; any
    other pair of shapes does not compare equal (numpy answers [False]
    or raises from [==], depending on its version; either way the
    caller raises at this point). *)
Definition all_rows_eq (x y : list row) : bool :=
  if decide (length x = length y) then bool_decide (x = y)
  else match x, y with
       | [r], _ => forallb (λ r', bool_decide (r = r')) y
       | _, [r] => forallb (λ r', bool_decide (r' = r)) x
       | _, _ => false
       end.

End Np.

(** ** CRMod pair codec *)

(** One entry of [_get_crmod_abmn]:
    [self.configs[:, 0] * 1e4 + self.configs[:, 1]]. *)
Definition encode_pair (x y : Z) : Z := x * 10000 + y.

(** One entry of [_crmod_to_abmn]:
    [A = configs[:, 0] % 1e4], [B = np.floor(configs[:, 0] / 1e4)].
    Python's [%] with a positive divisor and [floor] of the quotient are
    [Z.modulo] and [Z.div]. *)
Definition decode_pair (v : Z) : Z * Z := (v mod 10000, v / 10000).

(** [_get_crmod_abmn] on the stored array. *)
Definition _get_crmod_abmn (c : list row) : list (Z * Z) :=
  (λ r, (encode_pair (col0 r) (col1 r), encode_pair (col2 r) (col3 r))) <$> c.

(** [_crmod_to_abmn] *)
Definition _crmod_to_abmn (cfgs : list (Z * Z)) : list row :=
  (λ p, let A := (decode_pair p.1).1 in
        let B := (decode_pair p.1).2 in
        let M := (decode_pair p.2).1 in
        let N := (decode_pair p.2).2 in
        (A, B, M, N)) <$> cfgs.

(** ** Measurement store *)

(** [_get_next_index] *)
Definition _get_next_index : method Z :=
  self ← get_self;
  modify_self (set_meas_counter (meas_counter self + 1));;
  self ← get_self;
  mret (meas_counter self).

(** The [nr_of_configs] property. *)
Definition nr_of_configs : method nat :=
  self ← get_self;
  match configs self with
  | None => mret 0%nat
  | Some c => mret (length c)
  end.

(** [add_measurements] *)
Definition add_measurements (measurements : ndarray) : method ids :=
  let subdata := Np.atleast_2d measurements in
  self ← get_self;
  match configs self with
  | None => raise NoConfigurations
  | Some c =>
      subdata ←
        (if decide (shape1 subdata ≠ length c) then
           if decide (shape0 subdata = length c) then mret (Np.T subdata)
           else raise MeasurementMismatch
         else mret subdata);
      return_ids ←
        mapM (λ dataset,
                cid ← _get_next_index;
                modify_self (set_measurement cid dataset);;
                mret cid)
             (datasets subdata);
      match return_ids with
      | [cid] => mret (One cid)
      | _ => mret (Many return_ids)
      end
  end.

(** ** CRMod files *)

(** A configuration file: the count on the first line and the rows of
    two encoded pairs. *)
Record config_file : Type := mkConfigFile {
  cf_count : Z;
  cf_rows : list (Z * Z)
}.

(** A measurement file: the count on the first line and the rows of two
    encoded pairs, a magnitude and a phase. *)
Record volt_file : Type := mkVoltFile {
  vf_count : Z;
  vf_rows : list (Z * Z * Q * Q)
}.

(** [load_crmod_config] *)
Definition load_crmod_config (file : config_file) : method unit :=
  let nr_of_configs := cf_count file in
  let configs := Np.loadtxt 2 (cf_rows file) in
  if decide (nr_of_configs ≠ Z.of_nat (Np.loaded_shape0 configs)) then
    raise CountMismatch
  else
    match configs with
    | Np.Loaded1 _ => raise IndexError
    | Np.Loaded2 rows =>
        let ABMN := _crmod_to_abmn rows in
        modify_self (set_configs ABMN)
    end.

(** [load_crmod_volt] *)
Definition load_crmod_volt (file : volt_file) : method (list ids) :=
  let nr_of_configs := vf_count file in
  let measurements := Np.loadtxt 4 (vf_rows file) in
  if decide (nr_of_configs ≠ Z.of_nat (Np.loaded_shape0 measurements)) then
    raise CountMismatch
  else
    match measurements with
    | Np.Loaded1 _ => raise IndexError
    | Np.Loaded2 rows =>
        let ABMN := _crmod_to_abmn ((λ r, (r.1.1.1, r.1.1.2)) <$> rows) in
        self ← get_self;
        match configs self with
        | None => modify_self (set_configs ABMN)
        | Some c =>
            if negb (Np.all_rows_eq ABMN c) then raise ConfigMismatch
            else mret tt
        end;;
        cid_mag ← add_measurements (Array1 ((λ r, r.1.2) <$> rows));
        cid_pha ← add_measurements (Array1 ((λ r, r.2) <$> rows));
        mret [cid_mag; cid_pha]
    end.

(** ** Configuration store and generators *)

(** [add_to_configs] on a K x 4 batch ([np.atleast_2d] leaves it as it
    is).  The result is [None] or the stored array. *)
Definition add_to_configs (cfgs : list row) : method (option (list row)) :=
  if decide (length cfgs = 0%nat) then mret None
  else
    self ← get_self;
    match configs self with
    | None => modify_self (set_configs cfgs)
    | Some c => modify_self (set_configs (c ++ cfgs))
    end;;
    self ← get_self;
    mret (configs self).

(** [remove_duplicates]; the argument is the optional [configs]. *)
Definition remove_duplicates (cfgs : option (list row))
  : method (option (list row)) :=
  self ← get_self;
  c ← match cfgs with
      | None =>
          match configs self with
          | None => raise AttributeError
          | Some c => mret c
          end
      | Some c => mret c
      end;
  let configs_unique := Np.unique c in
  match cfgs with
  | None => modify_self (set_configs configs_unique);; mret None
  | Some _ => mret (Some configs_unique)
  end.

(** [gen_schlumberger].  [1 / a] and [(nr_electrodes - max(M, N)) / a]
    are true divisions. *)
Definition gen_schlumberger (M N : Z) : method (list row) :=
  self ← get_self;
  let a := Z.abs (M - N) in
  if decide (a = 0) then raise OverflowError
  else
    let nr_of_steps_left :=
      Np.int (inject_Z (Z.min M N) - 1 / inject_Z a)%Q in
    match nr_electrodes self with
    | None => raise TypeError
    | Some E =>
        let nr_of_steps_right :=
          Np.int (inject_Z (E - Z.max M N) / inject_Z a)%Q in
        let cfgs :=
          (λ i, let A := Z.min M N - (i + 1) * a in
                let B := Z.max M N + (i + 1) * a in
                (A, B, M, N))
          <$> Np.range 0 (Z.min nr_of_steps_left nr_of_steps_right) in
        add_to_configs cfgs;;
        mret cfgs
    end.

(** [gen_wenner] *)
Definition gen_wenner (a : Z) : method (list row) :=
  self ← get_self;
  match nr_electrodes self with
  | None => raise TypeError
  | Some E =>
      let cfgs :=
        (λ i, (i, i + a, i + 2 * a, i + 3 * a))
        <$> Np.range 1 (E - 3 * a + 1) in
      add_to_configs cfgs;;
      mret cfgs
  end.

(** ** Normal and reciprocal configurations *)

(** [c[index, :]] *)
Definition getrow (c : list row) (index : nat) : row :=
  nth index c (0, 0, 0, 0).

(** The four lists the first loop of
    [split_into_normal_and_reciprocal] appends to. *)
Record split_state : Type := mkSplitState {
  indices_used : list nat;
  normal : list orow;
  reciprocal : list orow;
  duplicates : list nat
}.

(** The rows of the sorted view that are the reciprocal of row [index]:
    "A == M, B == N, M == A, N == B". *)
Definition find_reciprocals (cfgs : list row) (index : nat) : list nat :=
  Np.where_
    ((λ r, bool_decide (col0 r = col2 (getrow cfgs index)) &&
           bool_decide (col1 r = col3 (getrow cfgs index)) &&
           bool_decide (col2 r = col0 (getrow cfgs index)) &&
           bool_decide (col3 r = col1 (getrow cfgs index))) <$> cfgs).

(** One iteration of [for index in indices_normal].  [stored] is
    [self.configs], [cfgs] its view with sorted halves.  The third
    branch tests [len(index_rec > 1)], the length of a boolean array as
    long as [index_rec]. *)
Definition split_step (pad : bool) (stored cfgs : list row)
    (st : split_state) (index : nat) : split_state :=
  let used := indices_used st ++ [index] in
  let normal' := normal st ++ [Row (getrow stored index)] in
  let index_rec := find_reciprocals cfgs index in
  if bool_decide (length index_rec = 0%nat) && pad then
    mkSplitState used normal' (reciprocal st ++ [NaNRow]) (duplicates st)
  else if bool_decide (length index_rec = 1%nat) then
    mkSplitState (used ++ [nth 0 index_rec 0%nat]) normal'
      (reciprocal st ++ [Row (getrow stored (nth 0 index_rec 0%nat))])
      (duplicates st)
  else if bool_decide
            (length ((λ i, bool_decide (1 < i)%nat) <$> index_rec) ≠ 0%nat)
  then
    mkSplitState (used ++ index_rec) normal'
      (reciprocal st ++ [Row (getrow stored (nth 0 index_rec 0%nat))])
      (duplicates st ++ tail index_rec)
  else
    mkSplitState used normal' (reciprocal st) (duplicates st).

(** One iteration of [for index in reciprocal_only_indices]. *)
Definition orphan_step (pad : bool) (stored : list row)
    (st : split_state) (index : nat) : split_state :=
  mkSplitState (indices_used st)
    (if pad then normal st ++ [NaNRow] else normal st)
    (reciprocal st ++ [Row (getrow stored index)])
    (duplicates st).

(** The body of [split_into_normal_and_reciprocal] on a stored array.
    [set_iter] is the order in which Python iterates over a set of
    indices, which the language leaves open. *)
Definition split_rows (set_iter : gset nat → list nat) (pad : bool)
    (stored : list row) : list orow * list orow :=
  let cfgs := Np.sort_halves <$> stored in
  let ab_min := col0 <$> cfgs in
  let mn_min := col2 <$> cfgs in
  let indices_normal :=
    Np.where_ (zip_with (λ x y, bool_decide (x < y)) ab_min mn_min) in
  let st :=
    fold_left (split_step pad stored cfgs) indices_normal
      (mkSplitState [] [] [] []) in
  let set_all_indices : gset nat := list_to_set (seq 0 (length cfgs)) in
  let set_used_indices : gset nat := list_to_set (indices_used st) in
  let reciprocal_only_indices := set_all_indices ∖ set_used_indices in
  let st :=
    fold_left (orphan_step pad stored) (set_iter reciprocal_only_indices) st in
  (normal st, reciprocal st).

(** [split_into_normal_and_reciprocal] *)
Definition split_into_normal_and_reciprocal (set_iter : gset nat → list nat)
    (pad : bool) : method (list orow * list orow) :=
  self ← get_self;
  match configs self with
  | None => raise TypeError
  | Some stored => mret (split_rows set_iter pad stored)
  end.

(** ** Vocabulary of the statements *)

(** Rule 1: in the view with sorted halves the smallest current
    electrode is smaller than the smallest potential electrode. *)
Definition is_normal (r : row) : Prop :=
  col0 (Np.sort_halves r) < col2 (Np.sort_halves r).

(** [r] is a reciprocal of [n]: the sorted dipoles are swapped. *)
Definition reciprocal_of (n r : row) : Prop :=
  col0 (Np.sort_halves r) = col2 (Np.sort_halves n) ∧
  col1 (Np.sort_halves r) = col3 (Np.sort_halves n) ∧
  col2 (Np.sort_halves r) = col0 (Np.sort_halves n) ∧
  col3 (Np.sort_halves r) = col1 (Np.sort_halves n).

(** Position-wise correspondence of the two padded outputs over the
    stored array [c]. *)
Definition aligned (c : list row) (n r : orow) : Prop :=
  match n, r with
  | Row n, Row r => n ∈ c ∧ r ∈ c ∧ is_normal n ∧ reciprocal_of n r
  | Row n, NaNRow =>
      n ∈ c ∧ is_normal n ∧ ∀ r, r ∈ c → ¬ reciprocal_of n r
  | NaNRow, Row r =>
      r ∈ c ∧ ¬ is_normal r ∧
      ∀ n, n ∈ c → is_normal n → ¬ reciprocal_of n r
  | NaNRow, NaNRow => False
  end.

(** All four electrode numbers of a row lie in [1, E]. *)
Definition in_range (E : Z) (r : row) : Prop :=
  1 ≤ col0 r ≤ E ∧ 1 ≤ col1 r ≤ E ∧ 1 ≤ col2 r ≤ E ∧ 1 ≤ col3 r ≤ E.

(** The ids carried by a return value of [add_measurements]. *)
Definition ids_list (r : ids) : list Z :=
  match r with
  | One cid => [cid]
  | Many cids => cids
  end.

(** [self'] is [self] after the data sets [ds] were stored under the
    next [length ds] ids, and nothing else changed. *)
Definition appended (ds : list (list Q)) (self self' : ConfigManager) : Prop :=
  configs self' = configs self ∧
  nr_electrodes self' = nr_electrodes self ∧
  meas_counter self' = meas_counter self + Z.of_nat (length ds) ∧
  (∀ (k : nat) d, ds !! k = Some d →
     measurements self' !! (meas_counter self + 1 + Z.of_nat k) = Some d) ∧
  (∀ cid : Z,
     ¬ (meas_counter self < cid ≤ meas_counter self + Z.of_nat (length ds)) →
     measurements self' !! cid = measurements self !! cid).

(** The calls that can change an instance.  A call that raises leaves
    the instance as it is at that moment and the caller carries on. *)
Inductive call : Type :=
  | call_add_measurements (m : ndarray)
  | call_load_crmod_config (file : config_file)
  | call_load_crmod_volt (file : volt_file)
  | call_add_to_configs (cfgs : list row)
  | call_remove_duplicates (cfgs : option (list row))
  | call_gen_schlumberger (M N : Z)
  | call_gen_wenner (a : Z).

Definition ids_of {A} (f : A → list Z) (o : outcome A) : list Z :=
  match o with
  | Ok a => f a
  | Raise _ => []
  end.

(** The measurement ids a call returns, and the instance after it. *)
Definition run_call (k : call) (self : ConfigManager)
  : list Z * ConfigManager :=
  match k with
  | call_add_measurements m =>
      let (o, self') := add_measurements m self in (ids_of ids_list o, self')
  | call_load_crmod_volt file =>
      let (o, self') := load_crmod_volt file self in
      (ids_of (λ rs, concat (ids_list <$> rs)) o, self')
  | call_load_crmod_config file => ([], (load_crmod_config file self).2)
  | call_add_to_configs cfgs => ([], (add_to_configs cfgs self).2)
  | call_remove_duplicates cfgs => ([], (remove_duplicates cfgs self).2)
  | call_gen_schlumberger M N => ([], (gen_schlumberger M N self).2)
  | call_gen_wenner a => ([], (gen_wenner a self).2)
  end.

(** All measurement ids returned over a sequence of calls, in order. *)
Fixpoint returned_ids (ks : list call) (self : ConfigManager) : list Z :=
  match ks with
  | [] => []
  | k :: ks' =>
      let (cids, self') := run_call k self in cids ++ returned_ids ks' self'
  end.

(** ** Python primitives of the remaining methods *)

Module Py.

(** [range(lo, hi, step)]; [None] is the [ValueError] for a zero step. *)
Definition range3 (lo hi step : Z) : option (list Z) :=
  if decide (step = 0) then None
  else if decide (0 < step) then
    Some ((λ k, lo + k * step) <$> seqZ 0 ((hi - lo + step - 1) / step))
  else
    Some ((λ k, lo + k * step) <$> seqZ 0 ((lo - hi - step - 1) / (- step))).

(** [del l[k]]: a negative index counts from the end; [None] is the
    [IndexError] for an index out of range. *)
Definition del {A} (l : list A) (k : Z) : option (list A) :=
  let n := Z.of_nat (length l) in
  if decide (0 ≤ k < n) then Some (delete (Z.to_nat k) l)
  else if decide (- n ≤ k < 0) then Some (delete (Z.to_nat (n + k)) l)
  else None.

(** [itertools.permutations(pool, 2)]: every position paired with every
    other position, in position order. *)
Definition permutations2 {A} (pool : list A) : list (A * A) :=
  concat (imap (λ i x, (λ y, (x, y)) <$> delete i pool) pool).

(** Lexicographic order on pairs, for a structured array with two
    fields. *)
Definition pair_le (x y : Z * Z) : Prop :=
  x.1 < y.1 ∨ (x.1 = y.1 ∧ x.2 ≤ y.2).

Global Instance pair_le_dec (x y : Z * Z) : Decision (pair_le x y).
Proof. unfold pair_le. apply _. Defined.

Fixpoint drop_repeated_pairs (prev : Z * Z) (aux : list (Z * Z))
  : list (Z * Z) :=
  match aux with
  | [] => []
  | x :: aux' =>
      if decide (x = prev) then drop_repeated_pairs x aux'
      else x :: drop_repeated_pairs x aux'
  end.

(** [np.unique] of the structured view of an array of pairs. *)
Definition unique_pairs (c : list (Z * Z)) : list (Z * Z) :=
  match merge_sort pair_le c with
  | [] => []
  | x :: aux => x :: drop_repeated_pairs x aux
  end.

End Py.

(** ** Further exceptions *)

Inductive error : Type :=
  | Exn (e : exn)
  | ValueError          (* range() arg 3 must not be zero; np.vstack of
                           arrays whose second dimensions differ *)
  | AxisError           (* axis 1 is out of bounds for array of dimension 1 *)
  | NoElectrodeCount.   (* 'You must provide the number of electrodes' *)

Inductive result (A : Type) : Type :=
  | Return (a : A)
  | Throw (e : error).
Arguments Return {A} a.
Arguments Throw {A} e.

(** The run of a method that may raise one of the further exceptions. *)
Definition action (A : Type) : Type :=
  ConfigManager → result A * ConfigManager.

(** ** Export *)

(** [write_crmod_config]; the value is the content written to the file:
    the count line and the rows of [_get_crmod_abmn], both printed as
    integers. *)
Definition write_crmod_config : method config_file :=
  self ← get_self;
  match configs self with
  | None => raise TypeError
  | Some c =>
      let ABMN := _get_crmod_abmn c in
      mret (mkConfigFile (Z.of_nat (length ABMN)) ABMN)
  end.

(** ** Further generators *)

(** The list [quadpoles] built by the loops of [gen_gradient]. *)
Definition gradient_quadpoles (N skip step vskip vstep : Z)
  : option (list row) :=
  match Py.range3 1 (N - skip) step with
  | None => None
  | Some outer =>
      match
        mapM (M := option)
          (λ a : Z,
             let b := a + skip + 1 in
             match Py.range3 (a + 1) (b - vskip - 1) vstep with
             | None => None
             | Some inner =>
                 Some ((λ m : Z, let n := m + vskip + 1 in (a, b, m, n))
                       <$> inner)
             end)
          outer
      with
      | None => None
      | Some per_a => Some (concat per_a)
      end
  end.

(** [gen_gradient] *)
Definition gen_gradient (skip step vskip vstep : Z)
  : action (option (list row)) := λ self,
  match nr_electrodes self with
  | None => (Throw (Exn TypeError), self)
  | Some N =>
      match gradient_quadpoles N skip step vskip vstep with
      | None => (Throw ValueError, self)
      | Some quadpoles =>
          if decide (length quadpoles = 0%nat) then (Return None, self)
          else
            match add_to_configs quadpoles self with
            | (Ok _, self') => (Return (Some quadpoles), self')
            | (Raise e, self') => (Throw (Exn e), self')
            end
      end
  end.

(** One iteration of the loop of [gen_dipole_dipole] over the potential
    dipoles before the current dipole; the state is [nr] and the rows
    appended so far. *)
Definition dd_before_step (skipv nr_voltage_dipoles a b : Z)
    (st : Z * list row) (n : Z) : Z * list row :=
  let nr := st.1 + 1 in
  if decide (nr > nr_voltage_dipoles) then (nr, st.2)
  else
    let m := n - skipv - 1 in
    if decide (m < 0) then (nr, st.2)
    else (nr, st.2 ++ [(a + 1, b + 1, m + 1, n + 1)]).

(** One iteration of the loop over the potential dipoles after the
    current dipole. *)
Definition dd_after_step (skipv nr_voltage_dipoles a b : Z)
    (st : Z * list row) (m : Z) : Z * list row :=
  let nr := st.1 + 1 in
  if decide (nr > nr_voltage_dipoles) then (nr, st.2)
  else
    let n := m + skipv + 1 in
    (nr, st.2 ++ [(a + 1, b + 1, m + 1, n + 1)]).

(** The rows one current dipole starting at [a] contributes. *)
Definition dd_for_current (skipc skipv stepv nr_voltage_dipoles : Z)
    (before_current : bool) (start_skip N a : Z) : option (list row) :=
  let b := a + skipc + 1 in
  match
    (if before_current then
       match Py.range3 (a - start_skip - 1) (- 1) (- stepv) with
       | None => None
       | Some ns =>
           Some (fold_left (dd_before_step skipv nr_voltage_dipoles a b)
                   ns (0, [])).2
       end
     else Some [])
  with
  | None => None
  | Some before =>
      match Py.range3 (b + start_skip + 1) (N - skipv - 1) stepv with
      | None => None
      | Some ms =>
          Some (before
                ++ (fold_left (dd_after_step skipv nr_voltage_dipoles a b)
                      ms (0, [])).2)
      end
  end.

(** The array [configs] that the loops of [gen_dipole_dipole] build,
    up to [configs = np.array(configs)]; exceptions are those raised up
    to that line. *)
Definition gen_dipole_dipole_configs (skipc : Z) (skipv : option Z)
    (stepc stepv nr_voltage_dipoles : Z) (before_current : bool)
    (start_skip : Z) (N : option Z) (self : ConfigManager)
  : result (list row) :=
  match (match N with
         | Some N => Some N
         | None => nr_electrodes self
         end) with
  | None => Throw NoElectrodeCount
  | Some N =>
      let skipv := default skipc skipv in
      match Py.range3 0 (N - skipv - skipc - 3) stepc with
      | None => Throw ValueError
      | Some cs =>
          match
            mapM (M := option)
              (dd_for_current skipc skipv stepv nr_voltage_dipoles
                 before_current start_skip N) cs
          with
          | None => Throw ValueError
          | Some per_a => Return (concat per_a)
          end
      end
  end.

(** How a call of [gen_dipole_dipole] ends.  [Stored1D] is the run that
    finds no configuration stored and builds no row: it assigns the
    empty one-dimensional array [np.array([])] to [self.configs] and
    returns it, which leaves the N x 4 arrays the record holds. *)
Inductive dd_outcome : Type :=
  | Generated (rows : list row) (self' : ConfigManager)
  | Failed (e : error) (self' : ConfigManager)
  | Stored1D.

(** [gen_dipole_dipole].  With rows built, [np.array(configs)] is K x 4
    and is stored or stacked under the stored array.  Without rows it
    is the empty 1-D array, which [np.vstack] refuses to stack under an
    N x 4 array. *)
Definition gen_dipole_dipole (skipc : Z) (skipv : option Z)
    (stepc stepv nr_voltage_dipoles : Z) (before_current : bool)
    (start_skip : Z) (N : option Z) (self : ConfigManager) : dd_outcome :=
  match
    gen_dipole_dipole_configs skipc skipv stepc stepv nr_voltage_dipoles
      before_current start_skip N self
  with
  | Throw e => Failed e self
  | Return rows =>
      match configs self with
      | None =>
          if decide (length rows = 0%nat) then Stored1D
          else Generated rows (set_configs rows self)
      | Some c =>
          if decide (length rows = 0%nat) then Failed ValueError self
          else Generated rows (set_configs (c ++ rows) self)
      end
  end.

(** [gen_all_current_dipoles] *)
Definition gen_all_current_dipoles : action (list (Z * Z)) := λ self,
  match nr_electrodes self with
  | None => (Throw (Exn TypeError), self)
  | Some N =>
      let celecs := Np.range 1 (N + 1) in
      let AB := Py.permutations2 celecs in
      if decide (length AB = 0%nat) then (Throw AxisError, self)
      else
        let AB := (λ ab, (Z.min ab.1 ab.2, Z.max ab.1 ab.2)) <$> AB in
        (Return (Py.unique_pairs AB), self)
  end.

(** The rows one injection dipole contributes in
    [gen_all_voltages_for_injections]. *)
Definition voltages_for_injection (N : option Z) (idipole : Z * Z)
  : outcome (list row) :=
  let I0 := Z.min idipole.1 idipole.2 - 1 in
  let I1 := Z.max idipole.1 idipole.2 - 1 in
  match N with
  | None => Raise TypeError
  | Some N =>
      let velecs := Np.range 1 (N + 1) in
      match Py.del velecs I1 with
      | None => Raise IndexError
      | Some velecs =>
          match Py.del velecs I0 with
          | None => Raise IndexError
          | Some velecs =>
              Ok ((λ voltage, (idipole.1, idipole.2, voltage.1, voltage.2))
                  <$> Py.permutations2 velecs)
          end
      end
  end.

(** The loop over the injections: the rows of all dipoles, or the first
    exception. *)
Fixpoint all_quadpoles (N : option Z) (injections : list (Z * Z))
  : outcome (list row) :=
  match injections with
  | [] => Ok []
  | idipole :: injections' =>
      match voltages_for_injection N idipole with
      | Raise e => Raise e
      | Ok rows =>
          match all_quadpoles N injections' with
          | Raise e => Raise e
          | Ok rows' => Ok (rows ++ rows')
          end
      end
  end.

(** [gen_all_voltages_for_injections] *)
Definition gen_all_voltages_for_injections (injections : list (Z * Z))
  : method (list row) :=
  self ← get_self;
  let N := nr_electrodes self in
  match all_quadpoles N injections with
  | Raise e => raise e
  | Ok [] => raise IndexError
  | Ok configs_unsorted =>
      let configs_sorted := Np.sort_halves <$> configs_unsorted in
      configs ← remove_duplicates (Some configs_sorted);
      match configs with
      | None => raise TypeError
      | Some configs => add_to_configs configs;; mret configs
      end
  end.

(** ** Sequences of calls *)

(** The instance after a sequence of calls. *)
Definition run_calls (ks : list call) (self : ConfigManager) : ConfigManager :=
  fold_left (λ self k, (run_call k self).2) ks self.

(** A current dipole and a potential dipole nested inside it, as
    generated for gradient measurements with [N] electrodes. *)
Definition nested (N : Z) (r : row) : Prop :=
  1 ≤ col0 r ∧ col0 r < col2 r ∧ col2 r < col3 r ∧ col3 r < col1 r ∧
  col1 r ≤ N.

(** The two dipoles of a row do not overlap. *)
Definition separated (r : row) : Prop :=
  col3 r < col0 r ∨ col1 r < col2 r.

(** A row with the electrodes of both dipoles exchanged. *)
Definition swap_dipoles (r : row) : row :=
  (col1 r, col0 r, col3 r, col2 r).

(** All four electrode numbers of a row fit the four decimal digits of
    the CRMod encoding. *)
Definition crmod_range (r : row) : Prop :=
  0 ≤ col0 r < 10000 ∧ 0 ≤ col1 r < 10000 ∧
  0 ≤ col2 r < 10000 ∧ 0 ≤ col3 r < 10000.

(** [self'] holds the measurements of [self] under the same ids; new ids
    lie above the counter of [self] and up to the counter of [self']. *)
Definition grows (self self' : ConfigManager) : Prop :=
  meas_counter self ≤ meas_counter self' ∧
  (∀ cid, cid ≤ meas_counter self →
     measurements self' !! cid = measurements self !! cid) ∧
  (∀ cid, meas_counter self' < cid →
     measurements self' !! cid = measurements self !! cid).

(** No measurement is stored under an id above the counter. *)
Definition ids_bounded (self : ConfigManager) : Prop :=
  ∀ cid d, measurements self !! cid = Some d → cid ≤ meas_counter self.

Global Instance is_normal_dec (r : row) : Decision (is_normal r).
Proof. unfold is_normal. apply _. Defined.

(** A potential dipole (m, n) that an injection (p, q) admits among
    [N] electrodes: two different electrodes other than p and q. *)
Definition admits (N : Z) (pq : Z * Z) (m n : Z) : Prop :=
  1 ≤ m ≤ N ∧ 1 ≤ n ≤ N ∧ m ≠ n ∧
  m ≠ pq.1 ∧ m ≠ pq.2 ∧ n ≠ pq.1 ∧ n ≠ pq.2.

(** An injection between two different electrodes out of 1..N. *)
Definition valid_injection (N : Z) (pq : Z * Z) : Prop :=
  1 ≤ pq.1 ≤ N ∧ 1 ≤ pq.2 ≤ N ∧ pq.1 ≠ pq.2.

(** * Properties *)

(** Decoding an encoded pair of electrode numbers below 10000 returns
    the two numbers in swapped order. *)
Lemma decode_encode_swapped (x y : Z) :
  0 ≤ y < 10000 → decode_pair (encode_pair x y) = (y, x).
Proof.
  intros Hy. unfold decode_pair, encode_pair. f_equal.
  - rewrite Z.add_comm, Z_mod_plus_full. by apply Z.mod_small.
  - rewrite Z.add_comm, Z_div_plus_full by lia.
    rewrite Z.div_small by lia. lia.
Qed.

(** The example of the docstring of [_crmod_to_abmn]. *)
Example crmod_to_abmn_docstring :
  _crmod_to_abmn [(10002, 40003); (10010, 30004)]
  = [(2, 1, 3, 4); (10, 1, 4, 3)].
Proof. reflexivity. Qed.

(** C1 (code at the failing input): the pair (1, 2) is exported as 10002
    and imported as (2, 1); the round trip through [_get_crmod_abmn] and
    [_crmod_to_abmn] turns the row (1, 2, 3, 4) into (2, 1, 4, 3). *)
Theorem crmod_roundtrip_swaps_pair :
  encode_pair 1 2 = 10002 ∧
  decode_pair (encode_pair 1 2) = (2, 1) ∧
  decode_pair (encode_pair 1 2) ≠ (1, 2) ∧
  _crmod_to_abmn (_get_crmod_abmn [(1, 2, 3, 4)]) = [(2, 1, 4, 3)].
Proof. split_and!; done. Qed.

(** ** The method monad *)

Lemma bind_ok {A B} (m : method A) (f : A → method B) self a self' :
  m self = (Ok a, self') → (m ≫= f) self = f a self'.
Proof. intros H. unfold mbind, method_bind. by rewrite H. Qed.

Lemma bind_get_self {B} (f : ConfigManager → method B) self :
  (get_self ≫= f) self = f self self.
Proof. reflexivity. Qed.

Lemma bind_raise {A B} (m : method A) (f : A → method B) self e self' :
  m self = (Raise e, self') → (m ≫= f) self = (Raise e, self').
Proof. intros H. unfold mbind, method_bind. by rewrite H. Qed.

(** ** Measurement ids *)

Lemma get_next_index_run self :
  _get_next_index self
  = (Ok (meas_counter self + 1), set_meas_counter (meas_counter self + 1) self).
Proof. reflexivity. Qed.

(** The loop of [add_measurements] hands out the next ids in order and
    stores every data set under its id. *)
Lemma store_loop (ds : list (list Q)) (self : ConfigManager) :
  ∃ self',
    mapM (λ dataset,
            cid ← _get_next_index;
            modify_self (set_measurement cid dataset);;
            mret cid) ds self
    = (Ok (seqZ (meas_counter self + 1) (Z.of_nat (length ds))), self') ∧
    appended ds self self'.
Proof.
  revert self. induction ds as [|d ds IH]; intros self.
  - exists self. split; [done |]. unfold appended. simpl.
    split_and!; (done || lia).
  - set (self1 := set_measurement (meas_counter self + 1) d
                    (set_meas_counter (meas_counter self + 1) self)).
    destruct (IH self1) as (self' & Hrun & Hc & He & Hn & Hin & Hout).
    exists self'. split.
    + simpl mapM. unfold mbind at 1, method_bind at 1.
      change ((_get_next_index ≫= _) self) with (Ok (meas_counter self + 1), self1).
      cbv beta iota. erewrite bind_ok by exact Hrun.
      unfold mret, method_ret. simpl meas_counter.
      rewrite (seqZ_cons (meas_counter self + 1)) by (simpl; lia).
      repeat f_equal; simpl; lia.
    + simpl meas_counter in *. unfold appended.
      split_and!; try done.
      * simpl length. lia.
      * intros [|k] d' Hk; simpl in Hk.
        -- injection Hk as <-. rewrite Hout by lia.
           replace (meas_counter self + 1 + Z.of_nat 0) with (meas_counter self + 1) by lia.
           simpl. apply lookup_insert_eq.
        -- replace (meas_counter self + 1 + Z.of_nat (S k))
             with (meas_counter self + 1 + 1 + Z.of_nat k) by lia.
           by apply Hin.
      * intros cid Hcid. simpl length in Hcid. rewrite Hout by lia.
        simpl. apply lookup_insert_ne. lia.
Qed.

Lemma ids_list_return (l : list Z) (self : ConfigManager) :
  ∃ r, (match l return method ids with
        | [cid] => mret (One cid)
        | _ => mret (Many l)
        end) self = (Ok r, self) ∧ ids_list r = l.
Proof. destruct l as [|x [|y l]]; eexists; split; reflexivity. Qed.

(** What a call of [add_measurements] does once the array [d] to store
    has been settled. *)
Lemma add_measurements_stores (m : ndarray) (self : ConfigManager)
    (c : list row) (d : array2d) :
  configs self = Some c →
  (shape1 (Np.atleast_2d m) = length c ∧ d = Np.atleast_2d m) ∨
  (shape1 (Np.atleast_2d m) ≠ length c ∧
   shape0 (Np.atleast_2d m) = length c ∧ d = Np.T (Np.atleast_2d m)) →
  ∃ r self',
    add_measurements m self = (Ok r, self') ∧
    ids_list r = seqZ (meas_counter self + 1) (Z.of_nat (length (datasets d))) ∧
    appended (datasets d) self self'.
Proof.
  intros Hc Hd.
  destruct (store_loop (datasets d) self) as (self' & Hloop & Happ).
  destruct (ids_list_return
              (seqZ (meas_counter self + 1) (Z.of_nat (length (datasets d))))
              self') as (r & Hr & Hids).
  exists r, self'. split; [| done].
  unfold add_measurements.
  unfold mbind at 1, method_bind at 1, get_self at 1. cbv beta iota.
  rewrite Hc.
  assert
    ((if decide (shape1 (Np.atleast_2d m) ≠ length c)
      then if decide (shape0 (Np.atleast_2d m) = length c)
           then mret (Np.T (Np.atleast_2d m))
           else raise MeasurementMismatch
      else mret (Np.atleast_2d m)) self = (Ok d, self)) as Hsub.
  { destruct Hd as [[H1 ->] | (H1 & H0 & ->)];
      repeat case_decide; done. }
  erewrite bind_ok by exact Hsub.
  erewrite bind_ok by exact Hloop.
  exact Hr.
Qed.

Lemma add_measurements_no_configs (m : ndarray) (self : ConfigManager) :
  configs self = None → add_measurements m self = (Raise NoConfigurations, self).
Proof.
  intros Hc. unfold add_measurements.
  unfold mbind, method_bind, get_self. by rewrite Hc.
Qed.

Lemma add_measurements_mismatch (m : ndarray) (self : ConfigManager)
    (c : list row) :
  configs self = Some c →
  shape1 (Np.atleast_2d m) ≠ length c →
  shape0 (Np.atleast_2d m) ≠ length c →
  add_measurements m self = (Raise MeasurementMismatch, self).
Proof.
  intros Hc H1 H0. unfold add_measurements.
  unfold mbind at 1, method_bind at 1, get_self at 1. cbv beta iota.
  rewrite Hc. apply bind_raise. by repeat case_decide.
Qed.

(** A failing [add_measurements] leaves the instance as it was. *)
Lemma add_measurements_raise (m : ndarray) (self self' : ConfigManager) e :
  add_measurements m self = (Raise e, self') → self' = self.
Proof.
  intros H. destruct (configs self) as [c|] eqn:Hc.
  - destruct (decide (shape1 (Np.atleast_2d m) = length c)) as [H1|H1].
    + destruct (add_measurements_stores m self c _ Hc (or_introl (conj H1 eq_refl)))
        as (r & s & Hrun & _). congruence.
    + destruct (decide (shape0 (Np.atleast_2d m) = length c)) as [H0|H0].
      * destruct (add_measurements_stores m self c _ Hc
                    (or_intror (conj H1 (conj H0 eq_refl))))
          as (r & s & Hrun & _). congruence.
      * rewrite (add_measurements_mismatch m self c Hc H1 H0) in H. congruence.
  - rewrite (add_measurements_no_configs m self Hc) in H. congruence.
Qed.


(** ** Imports *)

Lemma loadtxt_cases {A} (ncols : nat) (rows : list A) :
  (∃ len, Np.loadtxt ncols rows = Np.Loaded1 len ∧ (length rows ≤ 1)%nat) ∨
  (Np.loadtxt ncols rows = Np.Loaded2 rows ∧ (2 ≤ length rows)%nat).
Proof.
  destruct rows as [|x [|y rows]]; simpl.
  - left. eauto.
  - left. eauto.
  - right. split; [done | lia].
Qed.

Lemma all_rows_eq_lengths (x y : list row) :
  Np.all_rows_eq x y = true →
  length x = length y ∨ length y = 1%nat ∨ length x = 1%nat.
Proof.
  unfold Np.all_rows_eq. case_decide; [by left |].
  destruct x as [|r [|r' x]]; destruct y as [|s [|s' y]]; simpl; auto; done.
Qed.

(** Storing one column of a measurement file: it is stored as it is
    when it is as long as the stored array, and transposed into data
    sets of length one when the stored array has a single row. *)
Lemma add_column_ok (v : list Q) (self : ConfigManager) (c : list row) :
  configs self = Some c →
  length v = length c ∨ length c = 1%nat →
  ∃ r self' (n : nat),
    add_measurements (Array1 v) self = (Ok r, self') ∧
    ids_list r = seqZ (meas_counter self + 1) (Z.of_nat n) ∧
    meas_counter self' = meas_counter self + Z.of_nat n ∧
    configs self' = configs self.
Proof.
  intros Hc Hlen.
  destruct (decide (length v = length c)) as [Hv|Hv].
  - destruct (add_measurements_stores (Array1 v) self c _ Hc
                (or_introl (conj Hv eq_refl)))
      as (r & s & Hrun & Hids & Hcfg & _ & Hn & _).
    exists r, s, (length (datasets (Np.atleast_2d (Array1 v)))). done.
  - destruct Hlen as [|H1]; [done |].
    assert (shape0 (Np.atleast_2d (Array1 v)) = length c) as H0
      by (by rewrite H1).
    destruct (add_measurements_stores (Array1 v) self c _ Hc
                (or_intror (conj Hv (conj H0 eq_refl))))
      as (r & s & Hrun & Hids & Hcfg & _ & Hn & _).
    exists r, s, (length (datasets (Np.T (Np.atleast_2d (Array1 v))))). done.
Qed.

(** The ways a call of [load_crmod_volt] ends: one of three exceptions
    with the instance untouched, or two stored columns with consecutive
    ids. *)
Lemma load_crmod_volt_run (file : volt_file) (self : ConfigManager) :
  (∃ e, load_crmod_volt file self = (Raise e, self)) ∨
  (∃ rs self' (n : nat),
     load_crmod_volt file self = (Ok rs, self') ∧
     concat (ids_list <$> rs) = seqZ (meas_counter self + 1) (Z.of_nat n) ∧
     meas_counter self' = meas_counter self + Z.of_nat n).
Proof.
  unfold load_crmod_volt. case_decide; [left; by eexists |].
  destruct (loadtxt_cases 4 (vf_rows file)) as [(len & -> & _) | [-> Hrows]];
    [left; by eexists |].
  set (ABMN := _crmod_to_abmn _).
  set (mag := Array1 ((λ r, r.1.2) <$> vf_rows file)).
  set (pha := Array1 ((λ r, r.2) <$> vf_rows file)).
  assert (length ABMN = length (vf_rows file)) as HK
    by (unfold ABMN, _crmod_to_abmn; by rewrite !length_fmap).
  rewrite bind_get_self.
  assert (∀ self1 c,
            configs self1 = Some c →
            length (vf_rows file) = length c ∨ length c = 1%nat →
            ∃ rs self' (n : nat),
              (add_measurements mag ≫= λ cid_mag,
               add_measurements pha ≫= λ cid_pha,
               mret [cid_mag; cid_pha]) self1 = (Ok rs, self') ∧
              concat (ids_list <$> rs)
              = seqZ (meas_counter self1 + 1) (Z.of_nat n) ∧
              meas_counter self' = meas_counter self1 + Z.of_nat n) as Htwo.
  { intros self1 c Hc Hlen.
    destruct (add_column_ok ((λ r, r.1.2) <$> vf_rows file) self1 c Hc)
      as (r1 & s1 & n1 & Hrun1 & Hids1 & Hn1 & Hc1);
      [by rewrite length_fmap |].
    rewrite Hc in Hc1.
    destruct (add_column_ok ((λ r, r.2) <$> vf_rows file) s1 c Hc1)
      as (r2 & s2 & n2 & Hrun2 & Hids2 & Hn2 & Hc2);
      [by rewrite length_fmap |].
    exists [r1; r2], s2, (n1 + n2)%nat. split_and!.
    - erewrite bind_ok by exact Hrun1. erewrite bind_ok by exact Hrun2. done.
    - simpl. rewrite app_nil_r, Hids1, Hids2, Hn1.
      rewrite Nat2Z.inj_add, seqZ_app by lia. do 2 f_equal. lia.
    - lia. }
  destruct (configs self) as [c|] eqn:Hc.
  - destruct (Np.all_rows_eq ABMN c) eqn:Heq; simpl negb; cbv iota.
    + right. apply all_rows_eq_lengths in Heq.
      erewrite bind_ok by reflexivity. apply (Htwo self c Hc). lia.
    + left. by eexists.
  - right. erewrite bind_ok by reflexivity.
    destruct (Htwo (set_configs ABMN self) ABMN eq_refl) as (rs & s & n & H1 & H2 & H3);
      [left; lia |].
    exists rs, s, n. done.
Qed.

Lemma load_crmod_config_run (file : config_file) (self : ConfigManager) :
  (∃ e, load_crmod_config file self = (Raise e, self)) ∨
  ((2 ≤ length (cf_rows file))%nat ∧
   cf_count file = Z.of_nat (length (cf_rows file)) ∧
   load_crmod_config file self
   = (Ok tt, set_configs (_crmod_to_abmn (cf_rows file)) self)).
Proof.
  unfold load_crmod_config. case_decide as Hcount; [left; by eexists |].
  destruct (loadtxt_cases 2 (cf_rows file)) as [(len & Hl & _) | [Hl Hrows]];
    rewrite Hl in *; [left; by eexists |].
  right. simpl in Hcount. split_and!; [done | lia | done].
Qed.

(** C5: a failing import leaves the instance as it was.  A declared
    count that differs from the number of rows makes [load_crmod_config]
    and [load_crmod_volt] raise with the instance unchanged; so does a
    measurement file whose configurations do not compare equal to the
    stored ones; and whatever exception the import of a file with
    complete rows raises, the stored configurations, the measurements
    and the counter are those from before the call. *)
Theorem failed_import_keeps_state (self : ConfigManager) :
  (∀ file, cf_count file ≠ Z.of_nat (length (cf_rows file)) →
     ∃ e, load_crmod_config file self = (Raise e, self) ∧
          ((2 ≤ length (cf_rows file))%nat → e = CountMismatch)) ∧
  (∀ file, vf_count file ≠ Z.of_nat (length (vf_rows file)) →
     ∃ e, load_crmod_volt file self = (Raise e, self) ∧
          ((2 ≤ length (vf_rows file))%nat → e = CountMismatch)) ∧
  (∀ file c,
     configs self = Some c →
     vf_count file = Z.of_nat (length (vf_rows file)) →
     (2 ≤ length (vf_rows file))%nat →
     Np.all_rows_eq
       (_crmod_to_abmn ((λ r, (r.1.1.1, r.1.1.2)) <$> vf_rows file)) c = false →
     load_crmod_volt file self = (Raise ConfigMismatch, self)) ∧
  (∀ file e self',
     load_crmod_config file self = (Raise e, self') → self' = self) ∧
  (∀ file e self',
     load_crmod_volt file self = (Raise e, self') → self' = self).
Proof.
  split_and!.
  - intros file Hcount. unfold load_crmod_config.
    destruct (loadtxt_cases 2 (cf_rows file)) as [(len & -> & Hle) | [-> Hrows]].
    + case_decide; eexists; (split; [done | lia]).
    + simpl. case_decide; [| lia]. eexists. done.
  - intros file Hcount. unfold load_crmod_volt.
    destruct (loadtxt_cases 4 (vf_rows file)) as [(len & -> & Hle) | [-> Hrows]].
    + case_decide; eexists; (split; [done | lia]).
    + simpl. case_decide; [| lia]. eexists. done.
  - intros file c Hc Hcount Hrows Hneq. unfold load_crmod_volt.
    destruct (loadtxt_cases 4 (vf_rows file)) as [(len & _ & Hle) | [-> _]];
      [lia |].
    simpl. case_decide; [lia |].
    rewrite bind_get_self, Hc, Hneq. done.
  - intros file e self' Hrun.
    destruct (load_crmod_config_run file self) as [[e' He] | (_ & _ & Hok)];
      congruence.
  - intros file e self' Hrun.
    destruct (load_crmod_volt_run file self) as [[e' He] | (rs & s & n & Hok & _)];
      congruence.
Qed.

(** ** The id counter over a sequence of calls *)

Lemma add_to_configs_counter (cfgs : list row) (self : ConfigManager) :
  meas_counter (add_to_configs cfgs self).2 = meas_counter self.
Proof.
  unfold add_to_configs. case_decide; [done |].
  rewrite bind_get_self. destruct (configs self); reflexivity.
Qed.

Lemma add_to_configs_ok (cfgs : list row) (self : ConfigManager) :
  ∃ r, (add_to_configs cfgs self).1 = Ok r.
Proof.
  unfold add_to_configs. case_decide; [by eexists |].
  rewrite bind_get_self. destruct (configs self); by eexists.
Qed.

Lemma generated_counter (cfgs : list row) (self : ConfigManager) :
  meas_counter ((add_to_configs cfgs ≫= λ _, mret cfgs) self).2
  = meas_counter self.
Proof.
  pose proof (add_to_configs_counter cfgs self) as Hc.
  destruct (add_to_configs_ok cfgs self) as [r Hr].
  destruct (add_to_configs cfgs self) as [o s] eqn:Hrun. simpl in *. subst o.
  by erewrite bind_ok by exact Hrun.
Qed.

Lemma remove_duplicates_counter cfgs (self : ConfigManager) :
  meas_counter (remove_duplicates cfgs self).2 = meas_counter self.
Proof.
  unfold remove_duplicates. rewrite bind_get_self.
  destruct cfgs as [c|]; [reflexivity |].
  destruct (configs self); reflexivity.
Qed.

Lemma gen_schlumberger_counter (M N : Z) (self : ConfigManager) :
  meas_counter (gen_schlumberger M N self).2 = meas_counter self.
Proof.
  unfold gen_schlumberger. rewrite bind_get_self.
  case_decide; [done |]. destruct (nr_electrodes self); [| done].
  apply generated_counter.
Qed.

Lemma gen_wenner_counter (a : Z) (self : ConfigManager) :
  meas_counter (gen_wenner a self).2 = meas_counter self.
Proof.
  unfold gen_wenner. rewrite bind_get_self.
  destruct (nr_electrodes self); [| done]. apply generated_counter.
Qed.

Lemma load_crmod_config_counter file (self : ConfigManager) :
  meas_counter (load_crmod_config file self).2 = meas_counter self.
Proof.
  destruct (load_crmod_config_run file self) as [[e ->] | (_ & _ & ->)]; done.
Qed.

Lemma add_measurements_run (m : ndarray) (self : ConfigManager) :
  (∃ e, add_measurements m self = (Raise e, self)) ∨
  (∃ r self' (n : nat),
     add_measurements m self = (Ok r, self') ∧
     ids_list r = seqZ (meas_counter self + 1) (Z.of_nat n) ∧
     meas_counter self' = meas_counter self + Z.of_nat n).
Proof.
  destruct (configs self) as [c|] eqn:Hc.
  - destruct (decide (shape1 (Np.atleast_2d m) = length c)) as [H1|H1].
    + destruct (add_measurements_stores m self c _ Hc (or_introl (conj H1 eq_refl)))
        as (r & s & Hrun & Hids & _ & _ & Hn & _).
      right. by exists r, s, (length (datasets (Np.atleast_2d m))).
    + destruct (decide (shape0 (Np.atleast_2d m) = length c)) as [H0|H0].
      * destruct (add_measurements_stores m self c _ Hc
                    (or_intror (conj H1 (conj H0 eq_refl))))
          as (r & s & Hrun & Hids & _ & _ & Hn & _).
        right. by exists r, s, (length (datasets (Np.T (Np.atleast_2d m)))).
      * left. eexists. by apply (add_measurements_mismatch m self c).
  - left. eexists. by apply add_measurements_no_configs.
Qed.

(** Every call returns the ids that follow the counter and advances the
    counter past them. *)
Lemma run_call_ids (k : call) (self : ConfigManager) :
  ∃ n : nat,
    (run_call k self).1 = seqZ (meas_counter self + 1) (Z.of_nat n) ∧
    meas_counter (run_call k self).2 = meas_counter self + Z.of_nat n.
Proof.
  destruct k as [m|file|file|cfgs|cfgs|M N|a]; simpl.
  - destruct (add_measurements_run m self)
      as [[e ->] | (r & s & n & -> & Hids & Hn)].
    + exists 0%nat. simpl. split; [done | lia].
    + exists n. done.
  - exists 0%nat. rewrite load_crmod_config_counter. simpl. split; [done | lia].
  - destruct (load_crmod_volt_run file self)
      as [[e ->] | (r & s & n & -> & Hids & Hn)].
    + exists 0%nat. simpl. split; [done | lia].
    + exists n. done.
  - exists 0%nat. rewrite add_to_configs_counter. simpl. split; [done | lia].
  - exists 0%nat. rewrite remove_duplicates_counter. simpl. split; [done | lia].
  - exists 0%nat. rewrite gen_schlumberger_counter. simpl. split; [done | lia].
  - exists 0%nat. rewrite gen_wenner_counter. simpl. split; [done | lia].
Qed.

Lemma returned_ids_consecutive (ks : list call) (self : ConfigManager) :
  returned_ids ks self
  = seqZ (meas_counter self + 1) (Z.of_nat (length (returned_ids ks self))).
Proof.
  revert self. induction ks as [|k ks IH]; intros self; [done |].
  simpl. destruct (run_call_ids k self) as (n & Hids & Hn).
  destruct (run_call k self) as [cids self']. simpl in *.
  rewrite length_app, Nat2Z.inj_add, seqZ_app by lia.
  rewrite (IH self') at 1. rewrite Hids at 1.
  rewrite Hids, length_seqZ, Hn, Nat2Z.id.
  do 2 f_equal. lia.
Qed.

(** C6: over the lifetime of an instance, whatever calls are made on it,
    the measurement ids returned are 0, 1, 2, ... in that order: they
    are strictly increasing across the whole sequence, none is returned
    twice, and the first one is 0. *)
Theorem measurement_ids_sequential (E : option Z) (ks : list call) :
  returned_ids ks (__init__ E)
  = seqZ 0 (Z.of_nat (length (returned_ids ks (__init__ E)))) ∧
  (∀ (i j : nat) (a b : Z),
     (i < j)%nat →
     returned_ids ks (__init__ E) !! i = Some a →
     returned_ids ks (__init__ E) !! j = Some b →
     a < b) ∧
  NoDup (returned_ids ks (__init__ E)) ∧
  (∀ a, returned_ids ks (__init__ E) !! 0%nat = Some a → a = 0).
Proof.
  pose proof (returned_ids_consecutive ks (__init__ E)) as Hseq.
  simpl meas_counter in Hseq. change (-1 + 1) with 0 in Hseq.
  split; [done |]. rewrite Hseq. split_and!.
  - intros i j a b Hij [-> _]%lookup_seqZ [-> _]%lookup_seqZ. lia.
  - apply NoDup_seqZ.
  - intros a [-> _]%lookup_seqZ. done.
Qed.

(** ** Stored configurations *)

(** C9: [nr_of_configs] is 0 on a new instance and on every instance
    without stored configurations, and the number of stored rows
    otherwise; it never raises and never changes the instance. *)
Theorem nr_of_configs_counts (self : ConfigManager) :
  (∀ E, nr_of_configs (__init__ E) = (Ok 0%nat, __init__ E)) ∧
  (configs self = None → nr_of_configs self = (Ok 0%nat, self)) ∧
  (∀ c, configs self = Some c → nr_of_configs self = (Ok (length c), self)).
Proof.
  unfold nr_of_configs. split_and!.
  - done.
  - intros Hc. by rewrite bind_get_self, Hc.
  - intros c Hc. by rewrite bind_get_self, Hc.
Qed.

(** C10: [add_to_configs] called with a batch of length 0 returns
    [None] and leaves the instance, its stored configurations included,
    as it was. *)
Theorem add_to_configs_empty (cfgs : list row) (self : ConfigManager) :
  length cfgs = 0%nat → add_to_configs cfgs self = (Ok None, self).
Proof. intros Hlen. unfold add_to_configs. by case_decide. Qed.

(** What [add_to_configs] stores for a batch that is not empty. *)
Lemma add_to_configs_appends (cfgs : list row) (self : ConfigManager) :
  length cfgs ≠ 0%nat →
  add_to_configs cfgs self
  = (Ok (Some (default [] (configs self) ++ cfgs)),
     set_configs (default [] (configs self) ++ cfgs) self).
Proof.
  intros Hlen. unfold add_to_configs. case_decide; [done |].
  rewrite bind_get_self. destruct (configs self); reflexivity.
Qed.

(** ** Generators *)

Lemma range_length (lo hi : Z) : length (Np.range lo hi) = Z.to_nat (hi - lo).
Proof. unfold Np.range. apply length_seqZ. Qed.

Lemma range_lookup (lo hi : Z) (k : nat) :
  (k < Z.to_nat (hi - lo))%nat → Np.range lo hi !! k = Some (lo + Z.of_nat k).
Proof. intros Hk. unfold Np.range. apply lookup_seqZ_lt. lia. Qed.

(** C8: with E electrodes and E >= 3a + 1, [gen_wenner a] returns the
    E - 3a rows (i, i + a, i + 2a, i + 3a) for i = 1, ..., E - 3a in
    that order and appends them to the stored configurations; for a = 1
    and E = 8 these are the five rows from (1, 2, 3, 4) to
    (5, 6, 7, 8). *)
Theorem gen_wenner_rows (self : ConfigManager) (E a : Z) :
  nr_electrodes self = Some E →
  3 * a + 1 ≤ E →
  ∃ rows,
    gen_wenner a self
    = (Ok rows, set_configs (default [] (configs self) ++ rows) self) ∧
    length rows = Z.to_nat (E - 3 * a) ∧
    (∀ k : nat, (k < Z.to_nat (E - 3 * a))%nat →
       rows !! k = Some (let i := Z.of_nat k + 1 in
                         (i, i + a, i + 2 * a, i + 3 * a))) ∧
    (E = 8 → a = 1 →
       rows = [(1, 2, 3, 4); (2, 3, 4, 5); (3, 4, 5, 6);
               (4, 5, 6, 7); (5, 6, 7, 8)]).
Proof.
  intros HE Hle. eexists. split_and!.
  - unfold gen_wenner. rewrite bind_get_self, HE.
    erewrite bind_ok; [reflexivity |].
    apply add_to_configs_appends.
    rewrite length_fmap, range_length. lia.
  - rewrite length_fmap, range_length. f_equal. lia.
  - intros k Hk. rewrite list_lookup_fmap, range_lookup by lia.
    simpl. by rewrite (Z.add_comm 1).
  - intros -> ->. reflexivity.
Qed.

(** ** Duplicate removal *)

Global Instance row_le_trans : Transitive Np.row_le.
Proof.
  intros [[[a1 b1] m1] n1] [[[a2 b2] m2] n2] [[[a3 b3] m3] n3].
  unfold Np.row_le, col0, col1, col2, col3. simpl. lia.
Qed.

Global Instance row_le_antisymm : AntiSymm (=) Np.row_le.
Proof.
  intros [[[a1 b1] m1] n1] [[[a2 b2] m2] n2].
  unfold Np.row_le, col0, col1, col2, col3. simpl. intros H1 H2.
  repeat f_equal; lia.
Qed.

Global Instance row_le_total : Total Np.row_le.
Proof.
  intros [[[a1 b1] m1] n1] [[[a2 b2] m2] n2].
  unfold Np.row_le, col0, col1, col2, col3. simpl. lia.
Qed.

(** On a sorted array, dropping the elements equal to their predecessor
    leaves every value exactly once. *)
Lemma drop_repeats_sorted (prev : row) (aux : list row) :
  StronglySorted Np.row_le (prev :: aux) →
  NoDup (prev :: Np.drop_repeats prev aux) ∧
  (∀ r, r ∈ prev :: Np.drop_repeats prev aux ↔ r ∈ prev :: aux).
Proof.
  revert prev. induction aux as [|x aux IH]; intros prev Hs.
  - simpl. split; [apply NoDup_singleton | done].
  - apply StronglySorted_inv in Hs as [Hs Hprev].
    apply Forall_cons in Hprev as [Hpx Hprev].
    destruct (IH x Hs) as [Hnd Hin].
    simpl. case_decide as Hx.
    + subst x. split; [done |]. intros r. rewrite Hin, !elem_of_cons. tauto.
    + split.
      * apply NoDup_cons. split; [| done].
        rewrite Hin. intros Hmem. apply elem_of_cons in Hmem as [-> | Hmem]; [done |].
        apply StronglySorted_inv in Hs as [_ Hxs].
        rewrite Forall_forall in Hxs. specialize (Hxs _ Hmem).
        apply Hx. by apply (anti_symm Np.row_le).
      * intros r. rewrite (elem_of_cons _ r prev), Hin, !elem_of_cons. tauto.
Qed.

Lemma unique_spec (c : list row) :
  NoDup (Np.unique c) ∧ (∀ r, r ∈ Np.unique c ↔ r ∈ c).
Proof.
  unfold Np.unique.
  pose proof (StronglySorted_merge_sort Np.row_le c) as Hs.
  pose proof (merge_sort_Permutation Np.row_le c) as Hp.
  destruct (merge_sort Np.row_le c) as [|x aux].
  - split; [constructor |]. intros r. by rewrite <- Hp.
  - destruct (drop_repeats_sorted x aux Hs) as [Hnd Hin].
    split; [done |]. intros r. by rewrite Hin, Hp.
Qed.

Lemma unique_permutation (c c' : list row) :
  c' ≡ₚ c → Np.unique c' = Np.unique c.
Proof.
  intros Hp. unfold Np.unique.
  replace (merge_sort Np.row_le c') with (merge_sort Np.row_le c); [done |].
  apply (Sorted_unique Np.row_le).
  - apply Sorted_merge_sort, _.
  - apply Sorted_merge_sort, _.
  - by rewrite !merge_sort_Permutation.
Qed.

(** C4: [remove_duplicates] on an array [c] returns an array in which
    every row of [c] occurs exactly once and no other row occurs, rows
    being the same only when all four columns agree; any reordering of
    [c] gives the same result.  Rows that differ only in the order
    within a dipole are both kept, and [(1,2,3,4), (1,2,3,4), (5,6,7,8)]
    gives the two rows (1,2,3,4) and (5,6,7,8). *)
Theorem remove_duplicates_distinct (c : list row) (self : ConfigManager) :
  ∃ u,
    remove_duplicates (Some c) self = (Ok (Some u), self) ∧
    NoDup u ∧
    (∀ r, r ∈ u ↔ r ∈ c) ∧
    (∀ c', c' ≡ₚ c → remove_duplicates (Some c') self = (Ok (Some u), self)) ∧
    (c = [(1, 2, 3, 4); (2, 1, 3, 4)] → u = [(1, 2, 3, 4); (2, 1, 3, 4)]) ∧
    (c = [(1, 2, 3, 4); (1, 2, 3, 4); (5, 6, 7, 8)] →
       u = [(1, 2, 3, 4); (5, 6, 7, 8)]).
Proof.
  exists (Np.unique c). destruct (unique_spec c) as [Hnd Hin].
  split_and!; try done.
  - intros c' Hp. unfold remove_duplicates. rewrite bind_get_self.
    erewrite bind_ok by reflexivity. by rewrite (unique_permutation c c').
  - intros ->. by vm_compute.
  - intros ->. by vm_compute.
Qed.

(** ** Schlumberger soundings *)


(** C2 (code at the failing input): with 20 electrodes,
    [gen_schlumberger(3, 5)] has spacing 2, counts 2 steps to the left
    although only one fits, and returns the row (-1, 9, 3, 5), whose
    first electrode number is below 1. *)
Theorem gen_schlumberger_leaves_range :
  gen_schlumberger 3 5 (__init__ (Some 20))
  = (Ok [(1, 7, 3, 5); (-1, 9, 3, 5)],
     set_configs [(1, 7, 3, 5); (-1, 9, 3, 5)] (__init__ (Some 20))) ∧
  ¬ in_range 20 (-1, 9, 3, 5).
Proof.
  split; [by vm_compute |].
  unfold in_range, col0. simpl. lia.
Qed.

(** ** Normal and reciprocal configurations *)

Lemma elem_of_where_from (k i : nat) (mask : list bool) :
  i ∈ Np.where_from k mask ↔ ∃ j : nat, i = (k + j)%nat ∧ mask !! j = Some true.
Proof.
  revert k. induction mask as [|b mask IH]; intros k; simpl.
  - split; [by intros ?%elem_of_nil | by intros (j & _ & ?)].
  - assert (i ∈ Np.where_from (S k) mask ↔
            ∃ j : nat, i = (k + S j)%nat ∧ mask !! j = Some true) as Htail.
    { rewrite IH. split; intros (j & -> & Hj); exists j; split; [lia | done | lia | done]. }
    destruct b.
    + rewrite elem_of_cons, Htail. split.
      * intros [-> | (j & -> & Hj)]; [exists 0%nat | exists (S j)]; split; (lia || done).
      * intros ([|j] & -> & Hj); [left; lia | right; eauto].
    + rewrite Htail. split.
      * intros (j & -> & Hj). exists (S j). done.
      * intros ([|j] & -> & Hj); [done | eauto].
Qed.

Lemma elem_of_where (i : nat) (mask : list bool) :
  i ∈ Np.where_ mask ↔ mask !! i = Some true.
Proof.
  unfold Np.where_. rewrite elem_of_where_from. split.
  - by intros (j & -> & Hj).
  - intros Hi. by exists i.
Qed.

Lemma getrow_lookup (c : list row) (i : nat) (r : row) :
  c !! i = Some r → getrow c i = r.
Proof. intros Hi. unfold getrow. by apply nth_lookup_Some with (d := (0, 0, 0, 0)). Qed.

Lemma getrow_sorted (c : list row) (i : nat) (r : row) :
  c !! i = Some r → getrow (Np.sort_halves <$> c) i = Np.sort_halves r.
Proof. intros Hi. apply getrow_lookup. by rewrite list_lookup_fmap, Hi. Qed.

(** The rows found for a stored row [n] are the stored reciprocals of
    [n]. *)
Lemma elem_of_find_reciprocals (c : list row) (i j : nat) (n : row) :
  c !! i = Some n →
  j ∈ find_reciprocals (Np.sort_halves <$> c) i ↔
  ∃ r, c !! j = Some r ∧ reciprocal_of n r.
Proof.
  intros Hi. unfold find_reciprocals.
  rewrite elem_of_where, (getrow_sorted c i n Hi).
  rewrite <- list_fmap_compose, list_lookup_fmap. unfold reciprocal_of.
  destruct (c !! j) as [r|]; simpl.
  - split.
    + intros [= Hb]. exists r. split; [done |].
      repeat (apply andb_prop in Hb as [Hb ?%bool_decide_eq_true]).
      apply bool_decide_eq_true in Hb. done.
    + intros (r' & [= <-] & H0 & H1 & H2 & H3). f_equal.
      rewrite !andb_true_iff, !bool_decide_eq_true. done.
  - split; [done | by intros (r & ? & _)].
Qed.

(** The indices selected by rule 1 are those of the normal rows. *)
Lemma elem_of_indices_normal (c : list row) (i : nat) :
  i ∈ Np.where_
        (zip_with (λ x y, bool_decide (x < y))
           (col0 <$> (Np.sort_halves <$> c)) (col2 <$> (Np.sort_halves <$> c)))
  ↔ ∃ n, c !! i = Some n ∧ is_normal n.
Proof.
  rewrite elem_of_where, lookup_zip_with, !list_lookup_fmap.
  unfold is_normal. destruct (c !! i) as [n|]; simpl.
  - split.
    + intros [= Hb%bool_decide_eq_true]. eauto.
    + intros (n' & [= <-] & Hn). f_equal. by apply bool_decide_eq_true.
  - split; [done | by intros (n & ? & _)].
Qed.

Lemma Forall2_snoc {A B} (P : A → B → Prop) l k x y :
  Forall2 P l k → P x y → Forall2 P (l ++ [x]) (k ++ [y]).
Proof. intros Hlk Hxy. apply Forall2_app; [done | by constructor]. Qed.

(** One iteration of the first loop with padding: the outputs stay
    aligned, the processed index and all its reciprocals are marked as
    used. *)
Lemma split_step_aligned (c : list row) (st : split_state) (i : nat) (n : row) :
  c !! i = Some n →
  is_normal n →
  Forall2 (aligned c) (normal st) (reciprocal st) →
  let st' := split_step true c (Np.sort_halves <$> c) st i in
  Forall2 (aligned c) (normal st') (reciprocal st') ∧
  (∀ j, j ∈ indices_used st → j ∈ indices_used st') ∧
  i ∈ indices_used st' ∧
  (∀ j, j ∈ find_reciprocals (Np.sort_halves <$> c) i → j ∈ indices_used st').
Proof.
  intros Hi Hn Hal. unfold split_step.
  rewrite (getrow_lookup c i n Hi).
  pose proof (λ j, elem_of_find_reciprocals c i j n Hi) as Hrec.
  assert (n ∈ c) as Hnc by (by eapply list_elem_of_lookup_2).
  destruct (find_reciprocals (Np.sort_halves <$> c) i) as [|j [|j' rest]] eqn:Hfind;
    simpl.
  - split_and!.
    + apply Forall2_snoc; [done |]. simpl. split_and!; [done | done |].
      intros r [k Hk]%list_elem_of_lookup_1 Hr.
      assert (k ∈ @nil nat) as Hempty by (apply Hrec; eauto).
      by apply elem_of_nil in Hempty.
    + intros k Hk. apply elem_of_app. by left.
    + apply elem_of_app. right. by apply list_elem_of_singleton.
    + intros k Hk. by apply elem_of_nil in Hk.
  - destruct (proj1 (Hrec j)) as (r & Hj & Hr); [by left |].
    rewrite (getrow_lookup c j r Hj). split_and!.
    + apply Forall2_snoc; [done |]. simpl. split_and!; try done.
      by eapply list_elem_of_lookup_2.
    + intros k Hk. rewrite !elem_of_app. by left; left.
    + rewrite !elem_of_app. left; right. by apply list_elem_of_singleton.
    + intros k Hk. rewrite !elem_of_app. right. done.
  - destruct (proj1 (Hrec j)) as (r & Hj & Hr); [by left |].
    rewrite (getrow_lookup c j r Hj). split_and!.
    + apply Forall2_snoc; [done |]. simpl. split_and!; try done.
      by eapply list_elem_of_lookup_2.
    + intros k Hk. rewrite !elem_of_app. by left; left.
    + rewrite !elem_of_app. left; right. by apply list_elem_of_singleton.
    + intros k Hk. rewrite !elem_of_app. right. done.
Qed.

Lemma split_loop_aligned (c : list row) (idxs : list nat) (st : split_state) :
  (∀ i, i ∈ idxs → ∃ n, c !! i = Some n ∧ is_normal n) →
  Forall2 (aligned c) (normal st) (reciprocal st) →
  let st' := fold_left (split_step true c (Np.sort_halves <$> c)) idxs st in
  Forall2 (aligned c) (normal st') (reciprocal st') ∧
  (∀ j, j ∈ indices_used st → j ∈ indices_used st') ∧
  (∀ i, i ∈ idxs →
     i ∈ indices_used st' ∧
     ∀ j, j ∈ find_reciprocals (Np.sort_halves <$> c) i → j ∈ indices_used st').
Proof.
  revert st. induction idxs as [|i idxs IH]; intros st Hidx Hal; simpl.
  - split_and!; [done | done |]. intros i Hi. by apply elem_of_nil in Hi.
  - destruct (Hidx i) as (n & Hi & Hn); [by left |].
    destruct (split_step_aligned c st i n Hi Hn Hal) as (Hal1 & Hused1 & Hi1 & Hrec1).
    destruct (IH (split_step true c (Np.sort_halves <$> c) st i)) as (Hal' & Hused' & Hdone');
      [intros k Hk; apply Hidx; by right | done |].
    split_and!; [done | by auto |].
    intros k [-> | Hk]%elem_of_cons; [| by apply Hdone'].
    split; [by auto |]. intros j Hj. by auto.
Qed.

Lemma orphan_loop_aligned (c : list row) (idxs : list nat) (st : split_state) :
  (∀ j, j ∈ idxs → aligned c NaNRow (Row (getrow c j))) →
  Forall2 (aligned c) (normal st) (reciprocal st) →
  let st' := fold_left (orphan_step true c) idxs st in
  Forall2 (aligned c) (normal st') (reciprocal st').
Proof.
  revert st. induction idxs as [|j idxs IH]; intros st Hidx Hal; simpl; [done |].
  apply IH.
  - intros k Hk. apply Hidx. by right.
  - simpl. apply Forall2_snoc; [done |]. apply Hidx. by left.
Qed.

Section Reciprocity.

(** The iteration order of a set: any enumeration of its elements. *)
Variable set_iter : gset nat → list nat.
Hypothesis set_iter_elements : ∀ X, set_iter X ≡ₚ elements X.

Lemma elem_of_set_iter (X : gset nat) (j : nat) : j ∈ set_iter X ↔ j ∈ X.
Proof. by rewrite set_iter_elements, elem_of_elements. Qed.

Lemma set_iter_empty : set_iter ∅ = [].
Proof.
  apply Permutation_nil_r. by rewrite set_iter_elements, elements_empty.
Qed.

(** With padding the two outputs are aligned position by position. *)
Lemma split_rows_aligned (c : list row) :
  Forall2 (aligned c) (split_rows set_iter true c).1 (split_rows set_iter true c).2.
Proof.
  unfold split_rows. simpl.
  set (idxs := Np.where_ _).
  destruct (split_loop_aligned c idxs (mkSplitState [] [] [] []))
    as (Hal & _ & Hdone).
  { intros i Hi. by apply elem_of_indices_normal. }
  { constructor. }
  set (st := fold_left _ idxs _) in *.
  apply orphan_loop_aligned; [| done].
  intros j Hj. apply elem_of_set_iter in Hj.
  apply elem_of_difference in Hj as [Hall Hunused].
  rewrite elem_of_list_to_set in Hall, Hunused.
  apply elem_of_seq in Hall as [_ Hlt]. rewrite length_fmap in Hlt. simpl in Hlt.
  destruct (lookup_lt_is_Some_2 c j Hlt) as [r Hr].
  rewrite (getrow_lookup c j r Hr). simpl. split_and!.
  - by eapply list_elem_of_lookup_2.
  - intros Hn. destruct (Hdone j) as [Hused _]; [| done].
    apply elem_of_indices_normal. eauto.
  - intros n [i Hi]%list_elem_of_lookup_1 Hn Hrec.
    destruct (Hdone i) as [_ Hused]; [apply elem_of_indices_normal; eauto |].
    apply Hunused, Hused.
    apply (elem_of_find_reciprocals c i j n Hi). eauto.
Qed.

Lemma split_rows_no_orphans (c : list row) (ns rs : list orow) :
split_rows elements true c = (ns, rs) →
(list_to_set (seq 0 (length c)) : gset nat)
  ∖ list_to_set
      (indices_used
         (fold_left (split_step true c (Np.sort_halves <$> c))
            (Np.where_
               (zip_with (λ x y, bool_decide (x < y))
                  (col0 <$> (Np.sort_halves <$> c))
                  (col2 <$> (Np.sort_halves <$> c))))
            (mkSplitState [] [] [] []))) = ∅ →
split_rows set_iter true c = (ns, rs).
Proof.
unfold split_rows. rewrite !length_fmap. intros Hrun Hempty.
rewrite Hempty in *. rewrite set_iter_empty. by rewrite elements_empty in Hrun.
Qed.

(** C3: with [pad=True] the two arrays returned by
  [split_into_normal_and_reciprocal] have the same length and
  correspond position by position: a normal row with one of its
  stored reciprocals, a normal row that has no stored reciprocal with
  a NaN row, or a NaN row with a stored row that is neither normal nor
  the reciprocal of a stored normal row.  For the store holding
  (1,2,3,4) and (3,4,1,2) some position pairs these two rows, and for
  the store holding only (1,2,3,4) the row is paired with a NaN row. *)
Theorem split_pad_aligned (self : ConfigManager) (c : list row) :
configs self = Some c →
∃ normals reciprocals,
  split_into_normal_and_reciprocal set_iter true self
  = (Ok (normals, reciprocals), self) ∧
  length normals = length reciprocals ∧
  Forall2 (aligned c) normals reciprocals ∧
  (c ≡ₚ [(1, 2, 3, 4); (3, 4, 1, 2)] →
     ∃ i : nat, normals !! i = Some (Row (1, 2, 3, 4)) ∧
                reciprocals !! i = Some (Row (3, 4, 1, 2))) ∧
  (c = [(1, 2, 3, 4)] →
     ∃ i : nat, normals !! i = Some (Row (1, 2, 3, 4)) ∧
                reciprocals !! i = Some NaNRow).
Proof.
intros Hc.
exists (split_rows set_iter true c).1, (split_rows set_iter true c).2.
pose proof (split_rows_aligned c) as Hal.
split_and!.
- unfold split_into_normal_and_reciprocal. rewrite bind_get_self, Hc.
  by destruct (split_rows set_iter true c).
- by eapply Forall2_length.
- done.
- intros Hp. symmetry in Hp. apply Permutation_length_2_inv in Hp.
  exists 0%nat. destruct Hp as [-> | ->].
  + by rewrite (split_rows_no_orphans _ [Row (1, 2, 3, 4)] [Row (3, 4, 1, 2)])
      by (by vm_compute).
  + by rewrite (split_rows_no_orphans _ [Row (1, 2, 3, 4)] [Row (3, 4, 1, 2)])
      by (by vm_compute).
- intros ->. exists 0%nat.
  by rewrite (split_rows_no_orphans _ [Row (1, 2, 3, 4)] [NaNRow])
    by (by vm_compute).
Qed.

End Reciprocity.

(** * Further properties *)

(** ** The CRMod encoding and the configuration file *)

(** X1: two arrays of configurations with electrode numbers in
    [0, 9999] that [_get_crmod_abmn] encodes alike are the same array. *)
Theorem get_crmod_abmn_injective (c c' : list row) :
  Forall crmod_range c → Forall crmod_range c' →
  _get_crmod_abmn c = _get_crmod_abmn c' → c = c'.
Proof.
  unfold _get_crmod_abmn. revert c'.
  induction c as [|r c IH]; intros [|r' c'] Hc Hc' Heq; simplify_eq/=; [done |].
  apply Forall_cons in Hc as [Hr Hc]. apply Forall_cons in Hc' as [Hr' Hc'].
  f_equal; [| by apply IH].
  destruct r as [[[a b] m] n], r' as [[[a' b'] m'] n'].
  unfold crmod_range, encode_pair, col0, col1, col2, col3 in *. simpl in *.
  repeat f_equal; lia.
Qed.

Lemma crmod_to_abmn_get_crmod_abmn (c : list row) :
  Forall crmod_range c →
  _crmod_to_abmn (_get_crmod_abmn c) = swap_dipoles <$> c.
Proof.
  intros Hc. unfold _crmod_to_abmn, _get_crmod_abmn.
  rewrite <- list_fmap_compose. apply Forall_fmap_ext.
  eapply Forall_impl; [exact Hc |].
  intros [[[a b] m] n] (Ha & Hb & Hm & Hn).
  unfold col0, col1, col2, col3 in *. simpl in *.
  pose proof (decode_encode_swapped a b Hb) as Hab.
  pose proof (decode_encode_swapped m n Hn) as Hmn.
  unfold decode_pair in Hab, Hmn.
  injection Hab as -> ->. injection Hmn as -> ->. reflexivity.
Qed.

Lemma swap_dipoles_range (c : list row) :
  Forall crmod_range c → Forall crmod_range (swap_dipoles <$> c).
Proof.
  intros Hc. apply Forall_fmap. eapply Forall_impl; [exact Hc |].
  intros [[[a b] m] n]. unfold crmod_range, swap_dipoles, col0, col1, col2, col3.
  simpl. tauto.
Qed.

Lemma swap_dipoles_twice (c : list row) :
  swap_dipoles <$> (swap_dipoles <$> c) = c.
Proof.
  rewrite <- list_fmap_compose. rewrite <- (list_fmap_id c) at 2.
  apply list_fmap_ext. by intros _ [[[a b] m] n] _.
Qed.

Lemma length_get_crmod_abmn (c : list row) :
  length (_get_crmod_abmn c) = length c.
Proof. unfold _get_crmod_abmn. apply length_fmap. Qed.

Lemma write_crmod_config_run (self : ConfigManager) (c : list row) :
  configs self = Some c →
  write_crmod_config self
  = (Ok (mkConfigFile (Z.of_nat (length c)) (_get_crmod_abmn c)), self).
Proof.
  intros Hc. unfold write_crmod_config. rewrite bind_get_self, Hc.
  by rewrite length_get_crmod_abmn.
Qed.

Lemma load_written (self : ConfigManager) (c : list row) :
  (2 ≤ length c)%nat → Forall crmod_range c →
  load_crmod_config (mkConfigFile (Z.of_nat (length c)) (_get_crmod_abmn c)) self
  = (Ok tt, set_configs (swap_dipoles <$> c) self).
Proof.
  intros Hlen Hc.
  destruct (load_crmod_config_run
              (mkConfigFile (Z.of_nat (length c)) (_get_crmod_abmn c)) self)
    as [[e He] | (_ & _ & Hok)].
  - exfalso. revert He. unfold load_crmod_config. simpl.
    destruct (loadtxt_cases 2 (_get_crmod_abmn c)) as [(len & _ & Hle) | [-> _]].
    + rewrite length_get_crmod_abmn in Hle. lia.
    + simpl. rewrite length_get_crmod_abmn.
      case_decide; [done |]. discriminate.
  - rewrite Hok. simpl. by rewrite crmod_to_abmn_get_crmod_abmn.
Qed.

(** X2: a store of at least two configurations with electrode numbers
    in [0, 9999], written with [write_crmod_config] and read back with
    [load_crmod_config], comes back with the two electrodes of every
    dipole exchanged; writing and reading a second time restores it. *)
Theorem write_load_config_swaps (self : ConfigManager) (c : list row) :
  configs self = Some c →
  (2 ≤ length c)%nat →
  Forall crmod_range c →
  ∃ file file',
    write_crmod_config self = (Ok file, self) ∧
    load_crmod_config file self
    = (Ok tt, set_configs (swap_dipoles <$> c) self) ∧
    write_crmod_config (set_configs (swap_dipoles <$> c) self)
    = (Ok file', set_configs (swap_dipoles <$> c) self) ∧
    load_crmod_config file' (set_configs (swap_dipoles <$> c) self)
    = (Ok tt, self).
Proof.
  intros Hc Hlen Hrange. do 2 eexists. split_and!.
  - by apply write_crmod_config_run.
  - by apply load_written.
  - by apply write_crmod_config_run.
  - rewrite load_written.
    + rewrite swap_dipoles_twice. destruct self. simpl in *. by subst.
    + by rewrite length_fmap.
    + by apply swap_dipoles_range.
Qed.

(** X3: a store of exactly one configuration cannot be read back: the
    file [write_crmod_config] writes declares one row, [np.loadtxt]
    returns its single row as a 1-D array of length 2, and
    [load_crmod_config] raises the count-mismatch exception. *)
Theorem write_load_single_config_fails (self : ConfigManager) (r : row) :
  configs self = Some [r] →
  ∃ file,
    write_crmod_config self = (Ok file, self) ∧
    load_crmod_config file self = (Raise CountMismatch, self).
Proof.
  intros Hc. eexists. split; [by apply write_crmod_config_run |]. reflexivity.
Qed.

(** X4: [load_crmod_config] returns normally exactly when the file holds
    at least two rows and declares their number; it then replaces the
    stored configurations by the decoded rows and changes nothing
    else. *)
Theorem load_crmod_config_succeeds_iff (file : config_file)
    (self : ConfigManager) :
  ((∃ self', load_crmod_config file self = (Ok tt, self')) ↔
   (2 ≤ length (cf_rows file))%nat ∧
   cf_count file = Z.of_nat (length (cf_rows file))) ∧
  (∀ self', load_crmod_config file self = (Ok tt, self') →
     self' = set_configs (_crmod_to_abmn (cf_rows file)) self).
Proof.
  destruct (load_crmod_config_run file self) as [[e He] | (Hlen & Hcount & Hok)].
  - split.
    + split.
      * intros [self' Hrun]. congruence.
      * intros [Hlen Hcount]. exfalso. revert He. unfold load_crmod_config.
        destruct (loadtxt_cases 2 (cf_rows file)) as [(len & _ & Hle) | [-> _]];
          [lia |].
        simpl. case_decide; [done | discriminate].
    + intros self' Hrun. congruence.
  - split.
    + split; [done |]. intros _. eauto.
    + intros self' Hrun. congruence.
Qed.

(** ** The measurement store *)

Lemma add_vector (v : list Q) (self : ConfigManager) (c : list row) :
  configs self = Some c →
  length v = length c →
  add_measurements (Array1 v) self
  = (Ok (One (meas_counter self + 1)),
     set_measurement (meas_counter self + 1) v
       (set_meas_counter (meas_counter self + 1) self)).
Proof.
  intros Hc Hlen. unfold add_measurements. rewrite bind_get_self, Hc. simpl.
  case_decide; [done |]. reflexivity.
Qed.

(** X5: a measurement vector with one value per stored configuration
    is stored as it is: [add_measurements] returns the next id, the
    vector can be looked up under that id, every other entry of the
    store is as before and the configurations are untouched. *)
Theorem add_measurements_lookup (v : list Q) (self : ConfigManager)
    (c : list row) :
  configs self = Some c →
  length v = length c →
  ∃ self',
    add_measurements (Array1 v) self = (Ok (One (meas_counter self + 1)), self') ∧
    measurements self' !! (meas_counter self + 1) = Some v ∧
    (∀ cid, cid ≠ meas_counter self + 1 →
       measurements self' !! cid = measurements self !! cid) ∧
    configs self' = Some c.
Proof.
  intros Hc Hlen. eexists. split; [by apply (add_vector v self c) |].
  simpl. split_and!.
  - apply lookup_insert_eq.
  - intros cid Hcid. by apply lookup_insert_ne.
  - done.
Qed.

(** X6: [load_crmod_volt] on an instance without configurations, or
    with exactly the configurations of the file, returns two new ids,
    stores the magnitude column under the first and the phase column
    under the second, and leaves all other measurements as they were;
    afterwards the stored configurations are those of the file. *)
Theorem load_crmod_volt_stores (file : volt_file) (self : ConfigManager) :
  vf_count file = Z.of_nat (length (vf_rows file)) →
  (2 ≤ length (vf_rows file))%nat →
  configs self = None ∨
  configs self
  = Some (_crmod_to_abmn ((λ r, (r.1.1.1, r.1.1.2)) <$> vf_rows file)) →
  ∃ self',
    load_crmod_volt file self
    = (Ok [One (meas_counter self + 1); One (meas_counter self + 2)], self') ∧
    configs self'
    = Some (_crmod_to_abmn ((λ r, (r.1.1.1, r.1.1.2)) <$> vf_rows file)) ∧
    measurements self' !! (meas_counter self + 1)
    = Some ((λ r, r.1.2) <$> vf_rows file) ∧
    measurements self' !! (meas_counter self + 2)
    = Some ((λ r, r.2) <$> vf_rows file) ∧
    (∀ cid, cid ≠ meas_counter self + 1 → cid ≠ meas_counter self + 2 →
       measurements self' !! cid = measurements self !! cid) ∧
    meas_counter self' = meas_counter self + 2.
Proof.
  intros Hcount Hrows Hcfg.
  set (ABMN := _crmod_to_abmn _) in *.
  assert (length ABMN = length (vf_rows file)) as HK
    by (unfold ABMN, _crmod_to_abmn; by rewrite !length_fmap).
  set (s0 := set_configs ABMN self).
  set (s1 := set_measurement (meas_counter self + 1) ((λ r, r.1.2) <$> vf_rows file)
               (set_meas_counter (meas_counter self + 1) s0)).
  set (s2 := set_measurement (meas_counter self + 2) ((λ r, r.2) <$> vf_rows file)
               (set_meas_counter (meas_counter self + 2) s1)).
  assert ((add_measurements (Array1 ((λ r, r.1.2) <$> vf_rows file)) ≫= λ cid_mag,
           add_measurements (Array1 ((λ r, r.2) <$> vf_rows file)) ≫= λ cid_pha,
           mret [cid_mag; cid_pha]) s0
          = (Ok [One (meas_counter self + 1); One (meas_counter self + 2)], s2))
    as Htwo.
  { erewrite bind_ok by (apply (add_vector _ s0 ABMN); [done | by rewrite length_fmap]).
    erewrite bind_ok.
    2:{ apply (add_vector _ _ ABMN); [done | by rewrite length_fmap]. }
    simpl. unfold s2, s1. simpl.
    replace (meas_counter self + 1 + 1) with (meas_counter self + 2) by lia.
    reflexivity. }
  exists s2. split.
  - unfold load_crmod_volt.
    destruct (loadtxt_cases 4 (vf_rows file)) as [(len & _ & Hle) | [-> _]];
      [lia |].
    simpl. case_decide; [lia |]. rewrite bind_get_self. fold ABMN.
    destruct Hcfg as [Hc | Hc]; rewrite Hc.
    + erewrite bind_ok by reflexivity. exact Htwo.
    + assert (Np.all_rows_eq ABMN ABMN = true) as ->.
      { unfold Np.all_rows_eq. rewrite decide_True by done.
        by apply bool_decide_eq_true. }
      simpl. erewrite bind_ok by reflexivity.
      replace self with s0; [exact Htwo |].
      unfold s0. destruct self. simpl in *. by subst.
  - simpl. split_and!.
    + done.
    + rewrite lookup_insert_ne by lia. apply lookup_insert_eq.
    + apply lookup_insert_eq.
    + intros cid H1 H2. by rewrite !lookup_insert_ne.
    + done.
Qed.

Lemma grows_refl (self : ConfigManager) : grows self self.
Proof. unfold grows. split_and!; [lia | done | done]. Qed.

Lemma grows_trans (s1 s2 s3 : ConfigManager) :
  grows s1 s2 → grows s2 s3 → grows s1 s3.
Proof.
  intros (H1 & H2 & H3) (H1' & H2' & H3'). unfold grows. split_and!.
  - lia.
  - intros cid Hcid. rewrite H2' by lia. by apply H2.
  - intros cid Hcid. rewrite H3' by lia. apply H3. lia.
Qed.

Lemma grows_same (self self' : ConfigManager) :
  measurements self' = measurements self →
  meas_counter self' = meas_counter self →
  grows self self'.
Proof. intros Hm Hc. unfold grows. rewrite Hm, Hc. split_and!; [lia | done | done]. Qed.

Lemma appended_grows ds (self self' : ConfigManager) :
  appended ds self self' → grows self self'.
Proof.
  intros (_ & _ & Hn & _ & Hout). unfold grows. split_and!.
  - lia.
  - intros cid Hcid. apply Hout. lia.
  - intros cid Hcid. apply Hout. lia.
Qed.

Lemma add_measurements_grows (m : ndarray) (self : ConfigManager) :
  grows self (add_measurements m self).2.
Proof.
  destruct (configs self) as [c|] eqn:Hc.
  - destruct (decide (shape1 (Np.atleast_2d m) = length c)) as [H1|H1].
    + destruct (add_measurements_stores m self c _ Hc (or_introl (conj H1 eq_refl)))
        as (r & s & -> & _ & Happ).
      by eapply appended_grows.
    + destruct (decide (shape0 (Np.atleast_2d m) = length c)) as [H0|H0].
      * destruct (add_measurements_stores m self c _ Hc
                    (or_intror (conj H1 (conj H0 eq_refl))))
          as (r & s & -> & _ & Happ).
        by eapply appended_grows.
      * rewrite (add_measurements_mismatch m self c Hc H1 H0). apply grows_refl.
  - rewrite (add_measurements_no_configs m self Hc). apply grows_refl.
Qed.

Lemma load_crmod_volt_grows (file : volt_file) (self : ConfigManager) :
  grows self (load_crmod_volt file self).2.
Proof.
  unfold load_crmod_volt. case_decide; [apply grows_refl |].
  destruct (Np.loadtxt 4 (vf_rows file)) as [len|rows]; [apply grows_refl |].
  rewrite bind_get_self.
  set (mag := Array1 ((λ r, r.1.2) <$> rows)).
  set (pha := Array1 ((λ r, r.2) <$> rows)).
  assert (∀ s, grows self s →
            grows self ((add_measurements mag ≫= λ cid_mag,
                         add_measurements pha ≫= λ cid_pha,
                         mret [cid_mag; cid_pha]) s).2) as Htwo.
  { intros s Hs.
    pose proof (add_measurements_grows mag s) as H1.
    destruct (add_measurements mag s) as [[r1|e1] s1] eqn:Hrun1.
    - erewrite bind_ok by exact Hrun1.
      pose proof (add_measurements_grows pha s1) as H2.
      destruct (add_measurements pha s1) as [[r2|e2] s2] eqn:Hrun2.
      + erewrite bind_ok by exact Hrun2. simpl in *.
        eauto using grows_trans.
      + erewrite bind_raise by exact Hrun2. simpl in *.
        eauto using grows_trans.
    - erewrite bind_raise by exact Hrun1. simpl in *.
      eauto using grows_trans. }
  destruct (configs self) as [c|].
  - destruct (negb _).
    + apply grows_refl.
    + erewrite bind_ok by reflexivity. apply Htwo, grows_refl.
  - erewrite bind_ok by reflexivity. apply Htwo. by apply grows_same.
Qed.

Lemma add_to_configs_measurements (cfgs : list row) (self : ConfigManager) :
  measurements (add_to_configs cfgs self).2 = measurements self.
Proof.
  unfold add_to_configs. case_decide; [done |].
  rewrite bind_get_self. destruct (configs self); reflexivity.
Qed.

Lemma generated_measurements (cfgs : list row) (self : ConfigManager) :
  measurements ((add_to_configs cfgs ≫= λ _, mret cfgs) self).2
  = measurements self.
Proof.
  pose proof (add_to_configs_measurements cfgs self) as Hm.
  destruct (add_to_configs_ok cfgs self) as [r Hr].
  destruct (add_to_configs cfgs self) as [o s] eqn:Hrun. simpl in *. subst o.
  by erewrite bind_ok by exact Hrun.
Qed.

(** Every call keeps the measurements stored so far. *)
Lemma run_call_grows (k : call) (self : ConfigManager) :
  grows self (run_call k self).2.
Proof.
  destruct k as [m|file|file|cfgs|cfgs|M N|a]; simpl.
  - pose proof (add_measurements_grows m self) as H.
    by destruct (add_measurements m self).
  - destruct (load_crmod_config_run file self) as [[e ->] | (_ & _ & ->)];
      [apply grows_refl | by apply grows_same].
  - pose proof (load_crmod_volt_grows file self) as H.
    by destruct (load_crmod_volt file self).
  - apply grows_same;
      [apply add_to_configs_measurements | apply add_to_configs_counter].
  - apply grows_same; [| apply remove_duplicates_counter].
    unfold remove_duplicates. rewrite bind_get_self.
    destruct cfgs as [c|]; [reflexivity |].
    destruct (configs self); reflexivity.
  - apply grows_same; [| apply gen_schlumberger_counter].
    unfold gen_schlumberger. rewrite bind_get_self.
    case_decide; [done |]. destruct (nr_electrodes self); [| done].
    apply generated_measurements.
  - apply grows_same; [| apply gen_wenner_counter].
    unfold gen_wenner. rewrite bind_get_self.
    destruct (nr_electrodes self); [| done]. apply generated_measurements.
Qed.

Lemma grows_bounded (self self' : ConfigManager) :
  grows self self' → ids_bounded self → ids_bounded self'.
Proof.
  intros (Hc & _ & Habove) Hb cid d Hcid.
  destruct (decide (cid ≤ meas_counter self')) as [|Hgt]; [done |].
  rewrite Habove in Hcid by lia. apply Hb in Hcid. lia.
Qed.

Lemma run_calls_grows (ks : list call) (self : ConfigManager) :
  grows self (run_calls ks self).
Proof.
  unfold run_calls. revert self.
  induction ks as [|k ks IH]; intros self; simpl; [apply grows_refl |].
  eapply grows_trans; [apply run_call_grows | apply IH].
Qed.

(** X7: measurements are never overwritten or removed: whatever is
    stored under an id after some calls on a new instance is still
    stored under that id after any further calls. *)
Theorem measurements_never_overwritten (E : option Z) (ks ks' : list call)
    (cid : Z) (d : list Q) :
  measurements (run_calls ks (__init__ E)) !! cid = Some d →
  measurements (run_calls (ks ++ ks') (__init__ E)) !! cid = Some d.
Proof.
  intros Hcid. unfold run_calls at 1. rewrite fold_left_app.
  fold (run_calls ks (__init__ E)).
  fold (run_calls ks' (run_calls ks (__init__ E))).
  assert (ids_bounded (run_calls ks (__init__ E))) as Hb.
  { eapply grows_bounded; [apply run_calls_grows |].
    intros c' d' Hc'. simpl in Hc'. by rewrite lookup_empty in Hc'. }
  destruct (run_calls_grows ks' (run_calls ks (__init__ E))) as (_ & Hkeep & _).
  rewrite Hkeep; [done |]. by eapply Hb.
Qed.

(** ** The configuration store *)

Lemma add_to_configs_state (cfgs : list row) (self : ConfigManager) :
  (add_to_configs cfgs self).2
  = if decide (length cfgs = 0%nat) then self
    else set_configs (default [] (configs self) ++ cfgs) self.
Proof.
  case_decide as Hlen.
  - unfold add_to_configs. by rewrite decide_True.
  - by rewrite add_to_configs_appends.
Qed.

(** X8: adding two batches one after the other leaves the instance as
    adding their concatenation does; the stored rows keep the order in
    which they were added. *)
Theorem add_to_configs_batches (c1 c2 : list row) (self : ConfigManager) :
  (add_to_configs c2 (add_to_configs c1 self).2).2
  = (add_to_configs (c1 ++ c2) self).2 ∧
  (c1 ++ c2 ≠ [] →
   configs (add_to_configs (c1 ++ c2) self).2
   = Some (default [] (configs self) ++ c1 ++ c2)).
Proof.
  rewrite !add_to_configs_state. split.
  - destruct c1 as [|r1 c1]; [done |].
    rewrite (decide_False (P := length (r1 :: c1) = 0%nat)) by done.
    rewrite (decide_False (P := length ((r1 :: c1) ++ c2) = 0%nat)) by done.
    case_decide as Hc2.
    + apply nil_length_inv in Hc2 as ->. by rewrite app_nil_r.
    + simpl. by rewrite <- app_assoc.
  - intros Hne. rewrite decide_False; [done |].
    intros Hlen. by apply nil_length_inv in Hlen.
Qed.

Lemma drop_repeats_keeps_sorted (prev : row) (aux : list row) :
  StronglySorted Np.row_le (prev :: aux) →
  StronglySorted Np.row_le (prev :: Np.drop_repeats prev aux).
Proof.
  revert prev. induction aux as [|x aux IH]; intros prev Hs; [done |].
  apply StronglySorted_inv in Hs as [Hs Hprev].
  apply Forall_cons in Hprev as [Hpx Hprev].
  simpl. case_decide as Hx.
  - subst x. by apply IH.
  - specialize (IH x Hs). constructor; [done |].
    apply Forall_forall. intros y Hy.
    apply (proj2 (drop_repeats_sorted x aux Hs)) in Hy.
    apply elem_of_cons in Hy as [-> | Hy]; [done |].
    rewrite Forall_forall in Hprev. by apply Hprev.
Qed.

Lemma drop_repeats_nodup (prev : row) (aux : list row) :
  NoDup (prev :: aux) → Np.drop_repeats prev aux = aux.
Proof.
  revert prev. induction aux as [|x aux IH]; intros prev Hnd; [done |].
  apply NoDup_cons in Hnd as [Hprev Hnd].
  simpl. rewrite decide_False.
  - f_equal. by apply IH.
  - intros ->. apply Hprev. by left.
Qed.

Lemma unique_sorted (c : list row) : StronglySorted Np.row_le (Np.unique c).
Proof.
  unfold Np.unique.
  pose proof (StronglySorted_merge_sort Np.row_le c) as Hs.
  destruct (merge_sort Np.row_le c) as [|x aux]; [constructor |].
  by apply drop_repeats_keeps_sorted.
Qed.

Lemma unique_fixed (c : list row) :
  StronglySorted Np.row_le c → NoDup c → Np.unique c = c.
Proof.
  intros Hs Hnd. unfold Np.unique.
  replace (merge_sort Np.row_le c) with c.
  - destruct c as [|x aux]; [done |]. by rewrite drop_repeats_nodup.
  - apply (Sorted_unique Np.row_le).
    + by apply StronglySorted_Sorted.
    + apply Sorted_merge_sort, _.
    + by rewrite merge_sort_Permutation.
Qed.

(** X9: [remove_duplicates] without an argument replaces the stored
    array by an array that holds every stored row exactly once, in
    ascending lexicographic order, and returns nothing; a second call
    changes nothing; on an instance without configurations it raises
    and leaves the instance as it was. *)
Theorem remove_duplicates_in_place (self : ConfigManager) :
  (configs self = None →
     remove_duplicates None self = (Raise AttributeError, self)) ∧
  (∀ c, configs self = Some c →
     ∃ u,
       remove_duplicates None self = (Ok None, set_configs u self) ∧
       NoDup u ∧
       (∀ r, r ∈ u ↔ r ∈ c) ∧
       StronglySorted Np.row_le u ∧
       remove_duplicates None (set_configs u self)
       = (Ok None, set_configs u self)).
Proof.
  split.
  - intros Hc. unfold remove_duplicates. by rewrite bind_get_self, Hc.
  - intros c Hc. exists (Np.unique c).
    destruct (unique_spec c) as [Hnd Hin].
    pose proof (unique_sorted c) as Hs.
    split_and!; try done.
    + unfold remove_duplicates. by rewrite bind_get_self, Hc.
    + unfold remove_duplicates. rewrite bind_get_self. simpl.
      erewrite bind_ok by reflexivity. by rewrite unique_fixed.
Qed.

(** ** Normal configurations without and with padding *)

Lemma split_step_normal (pad : bool) (c cfgs : list row) (st : split_state)
    (i : nat) :
  normal (split_step pad c cfgs st i) = normal st ++ [Row (getrow c i)].
Proof. unfold split_step. repeat case_match; reflexivity. Qed.

Lemma split_loop_normal (pad : bool) (c cfgs : list row) (idxs : list nat)
    (st : split_state) :
  normal (fold_left (split_step pad c cfgs) idxs st)
  = normal st ++ ((λ i, Row (getrow c i)) <$> idxs).
Proof.
  revert st. induction idxs as [|i idxs IH]; intros st; simpl.
  - by rewrite app_nil_r.
  - by rewrite IH, split_step_normal, <- app_assoc.
Qed.

Lemma orphan_loop_normal (pad : bool) (c : list row) (idxs : list nat)
    (st : split_state) :
  normal (fold_left (orphan_step pad c) idxs st)
  = normal st ++ replicate (if pad then length idxs else 0%nat) NaNRow.
Proof.
  revert st. induction idxs as [|i idxs IH]; intros st; simpl.
  - destruct pad; by rewrite app_nil_r.
  - rewrite IH. destruct pad; simpl; [| done].
    by rewrite <- app_assoc.
Qed.

Lemma where_from_filter (P : row → Prop) `{∀ r, Decision (P r)}
    (pre l : list row) :
  getrow (pre ++ l)
    <$> Np.where_from (length pre) ((λ r, bool_decide (P r)) <$> l)
  = filter P l.
Proof.
  revert pre. induction l as [|x l IH]; intros pre; [done |].
  specialize (IH (pre ++ [x])).
  rewrite <- app_assoc, length_app, Nat.add_1_r in IH. simpl in IH.
  rewrite fmap_cons, filter_cons. cbn [Np.where_from].
  case_bool_decide as Hx.
  - rewrite decide_True by done. rewrite fmap_cons, IH. f_equal.
    unfold getrow. by rewrite nth_middle.
  - rewrite decide_False by done. exact IH.
Qed.

Lemma zip_with_fmap_same {A B C D} (f : B → C → D) (g : A → B) (h : A → C)
    (l : list A) :
  zip_with f (g <$> l) (h <$> l) = (λ x, f (g x) (h x)) <$> l.
Proof. induction l as [|x l IH]; simpl; [done | by f_equal]. Qed.

Lemma where_filter (P : row → Prop) `{∀ r, Decision (P r)} (c : list row) :
  getrow c <$> Np.where_ ((λ r, bool_decide (P r)) <$> c) = filter P c.
Proof. exact (where_from_filter P [] c). Qed.

Lemma normal_mask (c : list row) :
  zip_with (λ x y, bool_decide (x < y))
    (col0 <$> (Np.sort_halves <$> c)) (col2 <$> (Np.sort_halves <$> c))
  = (λ r, bool_decide (is_normal r)) <$> c.
Proof. by rewrite <- !list_fmap_compose, zip_with_fmap_same. Qed.

(** X10: whatever the padding and the iteration order of the left-over
    indices, the first array returned by
    [split_into_normal_and_reciprocal] starts with the stored rows that
    satisfy rule 1, in their stored order; without padding it holds
    nothing else, with padding only NaN rows follow.  Without stored
    configurations the method raises. *)
Theorem split_normals_in_order (set_iter : gset nat → list nat) (pad : bool)
    (self : ConfigManager) :
  (configs self = None →
     split_into_normal_and_reciprocal set_iter pad self = (Raise TypeError, self)) ∧
  (∀ c, configs self = Some c →
     ∃ normals reciprocals (k : nat),
       split_into_normal_and_reciprocal set_iter pad self
       = (Ok (normals, reciprocals), self) ∧
       normals = (Row <$> filter is_normal c) ++ replicate k NaNRow ∧
       (pad = false → k = 0%nat)).
Proof.
  unfold split_into_normal_and_reciprocal. split.
  - intros Hc. by rewrite bind_get_self, Hc.
  - intros c Hc. rewrite bind_get_self, Hc.
    exists (split_rows set_iter pad c).1, (split_rows set_iter pad c).2.
    eexists. split; [by destruct (split_rows set_iter pad c) |]. split.
    + unfold split_rows. cbv zeta. cbn [fst].
      rewrite orphan_loop_normal, split_loop_normal, normal_mask.
      cbn [normal app].
      change (λ i, Row (getrow c i)) with (Row ∘ getrow c).
      rewrite (list_fmap_compose (getrow c) Row), where_filter.
      reflexivity.
    + intros ->. reflexivity.
Qed.

(** ** Schlumberger and Wenner generators *)


Lemma generated_state (cfgs : list row) (self : ConfigManager) :
  (add_to_configs cfgs ≫= λ _, mret cfgs) self
  = (Ok cfgs, (add_to_configs cfgs self).2).
Proof.
  destruct (add_to_configs_ok cfgs self) as [r Hr].
  destruct (add_to_configs cfgs self) as [o s] eqn:Hrun. simpl in *. subst o.
  by erewrite bind_ok by exact Hrun.
Qed.


(** X12: [gen_wenner] without a known electrode count raises and leaves
    the instance as it was.  With E electrodes and a >= 0, every row it
    returns has its four electrodes in 1..E in ascending order; when
    fewer than 3a + 1 electrodes exist it returns no row and leaves the
    instance as it was. *)
Theorem gen_wenner_in_range (self : ConfigManager) (a : Z) :
  (nr_electrodes self = None → gen_wenner a self = (Raise TypeError, self)) ∧
  (∀ E, nr_electrodes self = Some E → 0 ≤ a →
     ∃ rows,
       gen_wenner a self = (Ok rows, (add_to_configs rows self).2) ∧
       Forall (λ r, in_range E r ∧
                    col0 r ≤ col1 r ∧ col1 r ≤ col2 r ∧ col2 r ≤ col3 r) rows ∧
       (E < 3 * a + 1 → rows = [] ∧ gen_wenner a self = (Ok [], self))).
Proof.
  unfold gen_wenner. split.
  - intros HE. by rewrite bind_get_self, HE.
  - intros E HE Ha. rewrite bind_get_self, HE. eexists. split_and!.
    + apply generated_state.
    + apply Forall_forall. intros r (i & -> & Hi)%list_elem_of_fmap.
      unfold Np.range in Hi. apply elem_of_seqZ in Hi.
      unfold in_range, col0, col1, col2, col3. simpl. lia.
    + intros Hlt. unfold Np.range. rewrite seqZ_nil by lia. done.
Qed.

(** ** Ranges with a step *)

Lemma range3_up (lo hi step : Z) :
  0 < step →
  ∃ l, Py.range3 lo hi step = Some l ∧ ∀ x, x ∈ l → lo ≤ x < hi.
Proof.
  intros Hstep. unfold Py.range3.
  rewrite decide_False by lia. rewrite decide_True by lia.
  eexists. split; [reflexivity |].
  intros x (k & -> & Hk)%list_elem_of_fmap. apply elem_of_seqZ in Hk.
  pose proof (Z.mul_div_le (hi - lo + step - 1) step Hstep). nia.
Qed.

Lemma range3_down (lo hi step : Z) :
  step < 0 →
  ∃ l, Py.range3 lo hi step = Some l ∧ ∀ x, x ∈ l → hi < x ≤ lo.
Proof.
  intros Hstep. unfold Py.range3.
  rewrite decide_False by lia. rewrite decide_False by lia.
  eexists. split; [reflexivity |].
  intros x (k & -> & Hk)%list_elem_of_fmap. apply elem_of_seqZ in Hk.
  pose proof (Z.mul_div_le (lo - hi - step - 1) (- step) ltac:(lia)). nia.
Qed.

Lemma range3_zero (lo hi : Z) : Py.range3 lo hi 0 = None.
Proof. reflexivity. Qed.

(** A loop that fails on no element collects the rows of all
    elements. *)
Lemma mapM_option_rows {A} (f : A → option (list row)) (P : row → Prop)
    (l : list A) :
  (∀ x, x ∈ l → ∃ rows, f x = Some rows ∧ Forall P rows) →
  ∃ per, mapM (M := option) f l = Some per ∧ Forall P (concat per).
Proof.
  induction l as [|x l IH]; intros Hf.
  - exists []. split; [done | constructor].
  - destruct (Hf x) as (rows & Hx & Hrows); [by left |].
    destruct IH as (per & Hper & Hall); [intros y Hy; apply Hf; by right |].
    exists (rows :: per). split.
    + simpl. rewrite Hx. simpl. by rewrite Hper.
    + simpl. by apply Forall_app.
Qed.

(** ** Gradient configurations *)

Lemma gradient_quadpoles_nested (N skip step vskip vstep : Z) :
  0 < step → 0 < vstep → 0 ≤ vskip →
  ∃ quadpoles,
    gradient_quadpoles N skip step vskip vstep = Some quadpoles ∧
    Forall (λ r, nested N r ∧ col1 r = col0 r + skip + 1 ∧
                 col3 r = col2 r + vskip + 1) quadpoles.
Proof.
  intros Hstep Hvstep Hvskip. unfold gradient_quadpoles.
  destruct (range3_up 1 (N - skip) step Hstep) as (outer & -> & Houter).
  edestruct (mapM_option_rows
               (λ a : Z,
                  match Py.range3 (a + 1) (a + skip + 1 - vskip - 1) vstep with
                  | None => None
                  | Some inner =>
                      Some ((λ m : Z, (a, a + skip + 1, m, m + vskip + 1)) <$> inner)
                  end)) as (per & Hper & Hall); [| rewrite Hper; eauto].
  intros a Ha%Houter.
  destruct (range3_up (a + 1) (a + skip + 1 - vskip - 1) vstep Hvstep)
    as (inner & -> & Hinner).
  eexists. split; [reflexivity |].
  apply Forall_forall. intros r (m & -> & Hm%Hinner)%list_elem_of_fmap.
  unfold nested, col0, col1, col2, col3. simpl. lia.
Qed.

(** X13: [gen_gradient] with positive step lengths and [vskip >= 0]
    never raises when the electrode count N is known.  Every row it
    generates has the potential dipole strictly inside the current
    dipole, 1 <= A < M < N' < B <= N, with B = A + skip + 1 and
    N' = M + vskip + 1.  When no row is generated it returns [None] and
    leaves the instance as it was; otherwise the rows are appended to
    the stored configurations. *)
Theorem gen_gradient_nested (self : ConfigManager) (N skip step vskip vstep : Z) :
  nr_electrodes self = Some N →
  0 < step → 0 < vstep → 0 ≤ vskip →
  gen_gradient skip step vskip vstep self = (Return None, self) ∨
  ∃ quadpoles,
    quadpoles ≠ [] ∧
    gen_gradient skip step vskip vstep self
    = (Return (Some quadpoles),
       set_configs (default [] (configs self) ++ quadpoles) self) ∧
    Forall (λ r, nested N r ∧ col1 r = col0 r + skip + 1 ∧
                 col3 r = col2 r + vskip + 1) quadpoles.
Proof.
  intros HN Hstep Hvstep Hvskip. unfold gen_gradient. rewrite HN.
  destruct (gradient_quadpoles_nested N skip step vskip vstep)
    as (quadpoles & -> & Hall); [done.. |].
  case_decide as Hlen; [by left |].
  right. exists quadpoles. split_and!; [| | done].
  - intros ->. done.
  - by rewrite add_to_configs_appends.
Qed.

(** X14: [gen_gradient] raises before it changes anything: without a
    known electrode count, and for a zero [step]; a zero [vstep] makes
    it raise as soon as one current dipole exists. *)
Theorem gen_gradient_errors (self : ConfigManager) (skip step vskip vstep : Z) :
  (nr_electrodes self = None →
     gen_gradient skip step vskip vstep self = (Throw (Exn TypeError), self)) ∧
  (∀ N, nr_electrodes self = Some N →
     gen_gradient skip 0 vskip vstep self = (Throw ValueError, self)) ∧
  (∀ N, nr_electrodes self = Some N → 0 < step → 1 < N - skip →
     gen_gradient skip step vskip 0 self = (Throw ValueError, self)).
Proof.
  unfold gen_gradient. split_and!.
  - intros HN. by rewrite HN.
  - intros N HN. by rewrite HN.
  - intros N HN Hstep Hlen. rewrite HN.
    replace (gradient_quadpoles N skip step vskip 0) with (@None (list row));
      [done |].
    unfold gradient_quadpoles, Py.range3.
    rewrite decide_False by lia. rewrite decide_True by lia.
    assert (0 < (N - skip - 1 + step - 1) / step) as Hpos.
    { apply Z.div_str_pos. lia. }
    rewrite seqZ_cons by done. simpl. done.
Qed.

(** ** Dipole-dipole configurations *)

Lemma fold_rows {X} (f : Z * list row → X → Z * list row) (P : row → Prop)
    (R : X → Prop) (xs : list X) (st : Z * list row) :
  (∀ st x, R x → Forall P st.2 → Forall P (f st x).2) →
  (∀ x, x ∈ xs → R x) →
  Forall P st.2 →
  Forall P (fold_left f xs st).2.
Proof.
  intros Hf. revert st. induction xs as [|x xs IH]; intros st HR Hst; [done |].
  simpl. apply IH.
  - intros y Hy. apply HR. by right.
  - apply Hf; [apply HR; by left | done].
Qed.

(** The rows one current dipole contributes. *)
Lemma dd_for_current_rows (skipc skipv stepv cap : Z) (before_current : bool)
    (start_skip N a : Z) :
  0 ≤ skipc → 0 ≤ skipv → 0 ≤ start_skip → 0 < stepv →
  0 ≤ a < N - skipv - skipc - 3 →
  ∃ rows,
    dd_for_current skipc skipv stepv cap before_current start_skip N a
    = Some rows ∧
    Forall (λ r, in_range N r ∧ col1 r = col0 r + skipc + 1 ∧
                 col3 r = col2 r + skipv + 1 ∧ separated r) rows.
Proof.
  intros Hskipc Hskipv Hstart Hstepv Ha. unfold dd_for_current.
  set (P := λ r : row, in_range N r ∧ col1 r = col0 r + skipc + 1 ∧
                        col3 r = col2 r + skipv + 1 ∧ separated r).
  assert (∃ before,
            (if before_current then
               match Py.range3 (a - start_skip - 1) (- 1) (- stepv) with
               | None => None
               | Some ns =>
                   Some (fold_left (dd_before_step skipv cap a (a + skipc + 1))
                           ns (0, [])).2
               end
             else Some []) = Some before ∧ Forall P before)
    as (before & -> & Hbefore).
  { destruct before_current; [| exists []; split; [done | constructor]].
    destruct (range3_down (a - start_skip - 1) (- 1) (- stepv))
      as (ns & -> & Hns); [lia |].
    eexists. split; [reflexivity |].
    apply (fold_rows _ P (λ n, -1 < n ≤ a - start_skip - 1)); [| done | constructor].
    intros st n Hn Hst. unfold dd_before_step.
    repeat case_decide; simpl; try done.
    apply Forall_app. split; [done |]. constructor; [| constructor].
    unfold P, in_range, separated, col0, col1, col2, col3. simpl. lia. }
  destruct (range3_up (a + skipc + 1 + start_skip + 1) (N - skipv - 1) stepv)
    as (ms & -> & Hms); [done |].
  eexists. split; [reflexivity |].
  apply Forall_app. split; [done |].
  apply (fold_rows _ P
           (λ m, a + skipc + 1 + start_skip + 1 ≤ m < N - skipv - 1));
    [| done | constructor].
  intros st m Hm Hst. unfold dd_after_step.
  case_decide; simpl; [done |].
  apply Forall_app. split; [done |]. constructor; [| constructor].
  unfold P, in_range, separated, col0, col1, col2, col3. simpl. lia.
Qed.

Lemma gen_dipole_dipole_stores (skipc : Z) (skipv : option Z)
    (stepc stepv nr_voltage_dipoles : Z) (before_current : bool)
    (start_skip : Z) (N : option Z) (self : ConfigManager) (rows : list row) :
  gen_dipole_dipole_configs skipc skipv stepc stepv nr_voltage_dipoles
    before_current start_skip N self = Return rows →
  (rows ≠ [] →
   gen_dipole_dipole skipc skipv stepc stepv nr_voltage_dipoles
     before_current start_skip N self
   = Generated rows (set_configs (default [] (configs self) ++ rows) self)) ∧
  (rows = [] → ∀ c, configs self = Some c →
   gen_dipole_dipole skipc skipv stepc stepv nr_voltage_dipoles
     before_current start_skip N self = Failed ValueError self).
Proof.
  intros Hrun. unfold gen_dipole_dipole. rewrite Hrun. split.
  - intros Hne.
    assert (length rows ≠ 0%nat) as Hlen
      by (intros Hlen; by apply nil_length_inv in Hlen).
    destruct (configs self); by rewrite decide_False.
  - intros -> c ->. done.
Qed.

(** X15: [gen_dipole_dipole] with the electrode count n passed as [N]
    or, when [N] is missing, known to the instance, with [skipc],
    [skipv] and [start_skip] not negative and positive step lengths.
    The loops raise no exception; every row they build has its four
    electrodes in 1..n, B = A + skipc + 1 and N' = M + skipv + 1
    ([skipv] being [skipc] when it is not given), and the potential
    dipole lies entirely before or entirely after the current dipole.
    When at least one row is built the method returns the rows and
    appends them to the stored configurations; when none is built and
    configurations are stored, it raises from [np.vstack] and leaves
    the instance as it was. *)
Theorem gen_dipole_dipole_rows (skipc : Z) (skipv : option Z)
    (stepc stepv nr_voltage_dipoles : Z) (before_current : bool)
    (start_skip : Z) (N : option Z) (self : ConfigManager) (n : Z) :
  N = Some n ∨ (N = None ∧ nr_electrodes self = Some n) →
  0 ≤ skipc → 0 ≤ default skipc skipv → 0 ≤ start_skip →
  0 < stepc → 0 < stepv →
  ∃ rows,
    gen_dipole_dipole_configs skipc skipv stepc stepv nr_voltage_dipoles
      before_current start_skip N self = Return rows ∧
    Forall (λ r, in_range n r ∧ col1 r = col0 r + skipc + 1 ∧
                 col3 r = col2 r + default skipc skipv + 1 ∧ separated r) rows ∧
    (rows ≠ [] →
     gen_dipole_dipole skipc skipv stepc stepv nr_voltage_dipoles
       before_current start_skip N self
     = Generated rows (set_configs (default [] (configs self) ++ rows) self)) ∧
    (rows = [] → ∀ c, configs self = Some c →
     gen_dipole_dipole skipc skipv stepc stepv nr_voltage_dipoles
       before_current start_skip N self = Failed ValueError self).
Proof.
  intros HN Hskipc Hskipv Hstart Hstepc Hstepv.
  assert (∃ rows,
            gen_dipole_dipole_configs skipc skipv stepc stepv nr_voltage_dipoles
              before_current start_skip N self = Return rows ∧
            Forall (λ r, in_range n r ∧ col1 r = col0 r + skipc + 1 ∧
                         col3 r = col2 r + default skipc skipv + 1 ∧
                         separated r) rows) as (rows & Hrun & Hall).
  { unfold gen_dipole_dipole_configs.
    assert (match N with Some N => Some N | None => nr_electrodes self end = Some n)
      as -> by (by destruct HN as [-> | [-> ->]]).
    destruct (range3_up 0 (n - default skipc skipv - skipc - 3) stepc Hstepc)
      as (cs & -> & Hcs).
    edestruct (mapM_option_rows
                 (dd_for_current skipc (default skipc skipv) stepv
                    nr_voltage_dipoles before_current start_skip n))
      as (per & Hper & Hall); [| rewrite Hper; eauto].
    intros a Ha%Hcs. by apply dd_for_current_rows. }
  exists rows. split; [done |]. split; [done |].
  by apply gen_dipole_dipole_stores.
Qed.

Lemma fold_inv {X} (f : Z * list row → X → Z * list row)
    (I : Z * list row → Prop) (R : X → Prop) (xs : list X) (st : Z * list row) :
  (∀ st x, R x → I st → I (f st x)) →
  (∀ x, x ∈ xs → R x) →
  I st → I (fold_left f xs st).
Proof.
  intros Hf. revert st. induction xs as [|x xs IH]; intros st HR Hst; [done |].
  simpl. apply IH.
  - intros y Hy. apply HR. by right.
  - apply Hf; [apply HR; by left | done].
Qed.

Lemma filter_none {A} (P : A → Prop) `{∀ x, Decision (P x)} (l : list A) :
  Forall (λ x, ¬ P x) l → filter P l = [].
Proof.
  induction 1 as [|x l Hx _ IH]; [done |].
  by rewrite filter_cons_False.
Qed.

Lemma range3_up_nodup (lo hi step : Z) :
  0 < step →
  ∃ l, Py.range3 lo hi step = Some l ∧ NoDup l ∧ ∀ x, x ∈ l → lo ≤ x < hi.
Proof.
  intros Hstep. destruct (range3_up lo hi step Hstep) as (l & Hl & Hin).
  exists l. split_and!; [done | | done].
  revert Hl. unfold Py.range3.
  rewrite decide_False by lia. rewrite decide_True by lia. intros [= <-].
  apply NoDup_fmap_2_strong; [| apply NoDup_seqZ].
  intros x y _ _ Hxy. nia.
Qed.

(** The rows of one current dipole, split into those before and those
    after it, with the cap on each part. *)
Lemma dd_for_current_parts (skipc skipv stepv cap : Z) (before_current : bool)
    (start_skip N a : Z) :
  0 ≤ skipc → 0 ≤ skipv → 0 ≤ start_skip → 0 < stepv →
  ∃ before after,
    dd_for_current skipc skipv stepv cap before_current start_skip N a
    = Some (before ++ after) ∧
    Forall (λ r, col0 r = a + 1 ∧ col3 r < col0 r ∧ ¬ col1 r < col2 r) before ∧
    Forall (λ r, col0 r = a + 1 ∧ col1 r < col2 r ∧ ¬ col3 r < col0 r) after ∧
    Z.of_nat (length before) ≤ Z.max 0 cap ∧
    Z.of_nat (length after) ≤ Z.max 0 cap ∧
    (before_current = false → before = []).
Proof.
  intros Hskipc Hskipv Hstart Hstepv. unfold dd_for_current.
  set (Pb := λ r : row, col0 r = a + 1 ∧ col3 r < col0 r ∧ ¬ col1 r < col2 r).
  set (Pa := λ r : row, col0 r = a + 1 ∧ col1 r < col2 r ∧ ¬ col3 r < col0 r).
  set (I := λ (P : row → Prop) (st : Z * list row),
              Forall P st.2 ∧ 0 ≤ st.1 ∧
              Z.of_nat (length st.2) ≤ Z.max 0 (Z.min st.1 cap)).
  assert (∃ before,
            (if before_current then
               match Py.range3 (a - start_skip - 1) (- 1) (- stepv) with
               | None => None
               | Some ns =>
                   Some (fold_left (dd_before_step skipv cap a (a + skipc + 1))
                           ns (0, [])).2
               end
             else Some []) = Some before ∧ Forall Pb before ∧
            Z.of_nat (length before) ≤ Z.max 0 cap ∧
            (before_current = false → before = []))
    as (before & -> & Hbefore & Hlenb & Hnone).
  { destruct before_current.
    - destruct (range3_down (a - start_skip - 1) (- 1) (- stepv))
        as (ns & -> & Hns); [lia |].
      eexists. split; [reflexivity |].
      assert (I Pb (fold_left (dd_before_step skipv cap a (a + skipc + 1))
                      ns (0, []))) as (HP & _ & Hlen).
      { apply (fold_inv _ (I Pb) (λ n, -1 < n ≤ a - start_skip - 1));
          [| done | unfold I; simpl; split_and!; [constructor | lia | lia]].
        intros st n Hn (HP & Hnr & Hlen). unfold dd_before_step, I.
        repeat case_decide; simpl; split_and!; try done; try lia.
        - apply Forall_app. split; [done |]. constructor; [| constructor].
          unfold Pb, col0, col1, col2, col3. simpl. lia.
        - rewrite length_app. simpl. lia. }
      split_and!; [done | lia | done].
    - exists []. split_and!; [done | constructor | simpl; lia | done]. }
  destruct (range3_up (a + skipc + 1 + start_skip + 1) (N - skipv - 1) stepv)
    as (ms & -> & Hms); [done |].
  eexists before, _. split; [reflexivity |].
  assert (I Pa (fold_left (dd_after_step skipv cap a (a + skipc + 1))
                  ms (0, []))) as (HP & _ & Hlen).
  { apply (fold_inv _ (I Pa)
             (λ m, a + skipc + 1 + start_skip + 1 ≤ m < N - skipv - 1));
      [| done | unfold I; simpl; split_and!; [constructor | lia | lia]].
    intros st m Hm (HP & Hnr & Hlen). unfold dd_after_step, I.
    case_decide; simpl; split_and!; try done; try lia.
    - apply Forall_app. split; [done |]. constructor; [| constructor].
      unfold Pa, col0, col1, col2, col3. simpl. lia.
    - rewrite length_app. simpl. lia. }
  split_and!; [done | done | done | lia | done].
Qed.

(** In the concatenation of the rows of different current dipoles, the
    rows that start at one electrode come from one dipole. *)
Lemma concat_filter_bound (f : Z → option (list row)) (Q : row → Prop)
    `{∀ r, Decision (Q r)} (bound : Z) (A : Z) (cs : list Z)
    (per : list (list row)) :
  0 ≤ bound →
  NoDup cs →
  mapM (M := option) f cs = Some per →
  (∀ c rows, c ∈ cs → f c = Some rows →
     Forall (λ r, col0 r = c + 1) rows ∧
     Z.of_nat (length (filter Q rows)) ≤ bound) →
  Z.of_nat (length (filter (λ r, col0 r = A ∧ Q r) (concat per))) ≤ bound ∧
  (A - 1 ∉ cs → filter (λ r, col0 r = A ∧ Q r) (concat per) = []).
Proof.
  intros Hbound. revert per.
  induction cs as [|c cs IH]; intros per Hnd Hper Hf.
  - simpl in Hper. injection Hper as <-. simpl. split; [lia | done].
  - apply NoDup_cons in Hnd as [Hc Hnd]. simpl in Hper.
    destruct (f c) as [rows|] eqn:Hfc; [| done]. simpl in Hper.
    destruct (mapM f cs) as [per'|] eqn:Hper'; [| done].
    simpl in Hper. injection Hper as <-.
    destruct (Hf c rows) as [Hrows Hlen]; [by left | done |].
    destruct (IH per' Hnd eq_refl) as [IHlen IHnone].
    { intros c' rows' Hc'. apply Hf. by right. }
    simpl. rewrite filter_app, length_app.
    destruct (decide (c + 1 = A)) as [HA | HA].
    + rewrite IHnone by (replace (A - 1) with c by lia; done).
      split.
      * simpl. rewrite <- (list_filter_filter (λ r, col0 r = A) Q).
        pose proof (length_filter (λ r, col0 r = A) (filter Q rows)). lia.
      * intros Hnot. exfalso. apply Hnot. apply elem_of_cons. left. lia.
    + rewrite (filter_none (λ r, col0 r = A ∧ Q r) rows).
      * split; [simpl; lia |]. intros Hnot. simpl. apply IHnone.
        intros Hmem. apply Hnot. by right.
      * eapply Forall_impl; [exact Hrows |]. intros r Hr [Hr' _].
        simpl in Hr. lia.
Qed.

(** X16: the cap of [gen_dipole_dipole].  With a known electrode count,
    [skipc], [skipv] and [start_skip] not negative and positive step
    lengths, for every electrode A at most [nr_voltage_dipoles] of the
    rows built start at A with the potential dipole after the
    current dipole, and at most [nr_voltage_dipoles] start at A with
    the potential dipole before it; without [before_current] every
    potential dipole lies after its current dipole. *)
Theorem gen_dipole_dipole_cap (skipc : Z) (skipv : option Z)
    (stepc stepv nr_voltage_dipoles : Z) (before_current : bool)
    (start_skip : Z) (N : option Z) (self : ConfigManager) (n : Z) :
  N = Some n ∨ (N = None ∧ nr_electrodes self = Some n) →
  0 ≤ skipc → 0 ≤ default skipc skipv → 0 ≤ start_skip →
  0 < stepc → 0 < stepv →
  ∃ rows,
    gen_dipole_dipole_configs skipc skipv stepc stepv nr_voltage_dipoles
      before_current start_skip N self = Return rows ∧
    (∀ A,
       Z.of_nat (length (filter (λ r, col0 r = A ∧ col1 r < col2 r) rows))
       ≤ Z.max 0 nr_voltage_dipoles ∧
       Z.of_nat (length (filter (λ r, col0 r = A ∧ col3 r < col0 r) rows))
       ≤ Z.max 0 nr_voltage_dipoles) ∧
    (before_current = false → Forall (λ r, col1 r < col2 r) rows).
Proof.
  intros HN Hskipc Hskipv Hstart Hstepc Hstepv.
  unfold gen_dipole_dipole_configs.
  assert (match N with Some N => Some N | None => nr_electrodes self end = Some n)
    as -> by (by destruct HN as [-> | [-> ->]]).
  destruct (range3_up_nodup 0 (n - default skipc skipv - skipc - 3) stepc Hstepc)
    as (cs & -> & Hnd & Hcs).
  set (f := dd_for_current skipc (default skipc skipv) stepv
              nr_voltage_dipoles before_current start_skip n).
  assert (∀ a, ∃ before after,
            f a = Some (before ++ after) ∧
            Forall (λ r, col0 r = a + 1 ∧ col3 r < col0 r ∧ ¬ col1 r < col2 r)
              before ∧
            Forall (λ r, col0 r = a + 1 ∧ col1 r < col2 r ∧ ¬ col3 r < col0 r)
              after ∧
            Z.of_nat (length before) ≤ Z.max 0 nr_voltage_dipoles ∧
            Z.of_nat (length after) ≤ Z.max 0 nr_voltage_dipoles ∧
            (before_current = false → before = [])) as Hparts
    by (intros a; by apply dd_for_current_parts).
  destruct (mapM_option_rows f
              (λ r, before_current = false → col1 r < col2 r) cs)
    as (per & Hper & Hafter).
  { intros a _. destruct (Hparts a) as (before & after & -> & _ & Ha & _ & _ & Hnone).
    eexists. split; [reflexivity |].
    apply Forall_forall. intros r Hr Hbc. rewrite (Hnone Hbc) in Hr.
    rewrite Forall_forall in Ha. by apply Ha in Hr as (_ & ? & _). }
  rewrite Hper. eexists. split; [reflexivity |]. split.
  - intros A. split.
    + apply (concat_filter_bound f (λ r, col1 r < col2 r) _ A cs per);
        [lia | done | done |].
      intros a rows _ Hrows.
      destruct (Hparts a) as (before & after & Hf & Hb & Ha & _ & Hlena & _).
      rewrite Hf in Hrows. injection Hrows as <-. split.
      * apply Forall_app. split; eapply Forall_impl; eauto; by intros r (? & _).
      * rewrite filter_app, length_app, (filter_none _ before).
        -- pose proof (length_filter (λ r, col1 r < col2 r) after). simpl. lia.
        -- eapply Forall_impl; [exact Hb |]. by intros r (_ & _ & ?).
    + apply (concat_filter_bound f (λ r, col3 r < col0 r) _ A cs per);
        [lia | done | done |].
      intros a rows _ Hrows.
      destruct (Hparts a) as (before & after & Hf & Hb & Ha & Hlenb & _ & _).
      rewrite Hf in Hrows. injection Hrows as <-. split.
      * apply Forall_app. split; eapply Forall_impl; eauto; by intros r (? & _).
      * rewrite filter_app, length_app, (filter_none _ after).
        -- pose proof (length_filter (λ r, col3 r < col0 r) before).
           simpl. lia.
        -- eapply Forall_impl; [exact Ha |]. by intros r (_ & _ & ?).
  - intros Hbc. eapply Forall_impl; [exact Hafter |]. auto.
Qed.

(** ** Deletion and ordered pairs *)

Lemma elem_of_concat {A} (ls : list (list A)) (x : A) :
  x ∈ concat ls ↔ ∃ l, l ∈ ls ∧ x ∈ l.
Proof.
  rewrite list_elem_of_In, in_concat. split.
  - intros (l & Hl & Hx). exists l. by rewrite !list_elem_of_In.
  - intros (l & Hl & Hx). exists l. by rewrite <- !list_elem_of_In.
Qed.

(** Deleting one position of a list without repetitions removes the
    element at that position and nothing else. *)
Lemma delete_nodup {A} (l : list A) (i : nat) (y : A) :
  NoDup l → l !! i = Some y →
  NoDup (delete i l) ∧ ∀ x, x ∈ delete i l ↔ x ∈ l ∧ x ≠ y.
Proof.
  intros Hnd Hi. rewrite delete_take_drop.
  rewrite <- (take_drop_middle l i y Hi) in Hnd.
  apply NoDup_app in Hnd as (Htake & Hdisj & Hrest).
  apply NoDup_cons in Hrest as [Hy Hdrop]. split.
  - apply NoDup_app. split_and!; [done | | done].
    intros x Hx Hx'. apply (Hdisj x Hx). by right.
  - intros x.
    assert (x ∈ l ↔ x ∈ take i l ∨ x = y ∨ x ∈ drop (S i) l) as ->.
    { rewrite <- (take_drop_middle l i y Hi) at 1.
      by rewrite elem_of_app, elem_of_cons. }
    rewrite elem_of_app. split.
    + intros [Hx | Hx].
      * split; [by left |]. intros ->. apply (Hdisj y Hx). by left.
      * split; [by right; right |]. by intros ->.
    + intros [[Hx | [-> | Hx]] Hne]; [by left | done | by right].
Qed.

Lemma elem_of_delete_lookup {A} (l : list A) (i : nat) (y : A) :
  y ∈ delete i l ↔ ∃ j, j ≠ i ∧ l !! j = Some y.
Proof.
  rewrite list_elem_of_lookup. split.
  - intros [j Hj]. rewrite list_lookup_delete in Hj.
    case_decide; [exists j | exists (S j)]; split; (lia || done).
  - intros (j & Hne & Hj). destruct (decide (j < i)%nat).
    + exists j. by rewrite list_lookup_delete_lt.
    + exists (pred j). rewrite list_lookup_delete_ge by lia.
      by replace (S (pred j)) with j by lia.
Qed.

(** The pairs of [itertools.permutations(pool, 2)] are the pairs of
    elements at two different positions. *)
Lemma elem_of_permutations2 {A} (pool : list A) (u v : A) :
  (u, v) ∈ Py.permutations2 pool ↔
  ∃ i j, i ≠ j ∧ pool !! i = Some u ∧ pool !! j = Some v.
Proof.
  unfold Py.permutations2. rewrite elem_of_concat. split.
  - intros (l & (i & x & -> & Hi)%elem_of_lookup_imap
              & (y & [= -> ->] & (j & Hne & Hj)%elem_of_delete_lookup)%list_elem_of_fmap).
    exists i, j. done.
  - intros (i & j & Hne & Hi & Hj).
    exists ((λ y, (u, y)) <$> delete i pool). split.
    + apply elem_of_lookup_imap. exists i, u. done.
    + apply list_elem_of_fmap. exists v. split; [done |].
      apply elem_of_delete_lookup. exists j. done.
Qed.

Lemma elem_of_permutations2_nodup {A} (pool : list A) (u v : A) :
  NoDup pool →
  (u, v) ∈ Py.permutations2 pool ↔ u ∈ pool ∧ v ∈ pool ∧ u ≠ v.
Proof.
  intros Hnd. rewrite elem_of_permutations2, !list_elem_of_lookup. split.
  - intros (i & j & Hne & Hi & Hj). split_and!; [eauto | eauto |].
    intros ->. apply Hne. by eapply NoDup_lookup.
  - intros ([i Hi] & [j Hj] & Hne). exists i, j. split; [| done].
    intros ->. congruence.
Qed.

Global Instance pair_le_trans : Transitive Py.pair_le.
Proof. intros [a1 b1] [a2 b2] [a3 b3]. unfold Py.pair_le. simpl. lia. Qed.

Global Instance pair_le_antisymm : AntiSymm (=) Py.pair_le.
Proof.
  intros [a1 b1] [a2 b2]. unfold Py.pair_le. simpl. intros H1 H2.
  f_equal; lia.
Qed.

Global Instance pair_le_total : Total Py.pair_le.
Proof. intros [a1 b1] [a2 b2]. unfold Py.pair_le. simpl. lia. Qed.

Lemma drop_repeated_pairs_sorted (prev : Z * Z) (aux : list (Z * Z)) :
  StronglySorted Py.pair_le (prev :: aux) →
  NoDup (prev :: Py.drop_repeated_pairs prev aux) ∧
  StronglySorted Py.pair_le (prev :: Py.drop_repeated_pairs prev aux) ∧
  (∀ r, r ∈ prev :: Py.drop_repeated_pairs prev aux ↔ r ∈ prev :: aux).
Proof.
  revert prev. induction aux as [|x aux IH]; intros prev Hs.
  - simpl. split_and!; [apply NoDup_singleton | done | done].
  - apply StronglySorted_inv in Hs as [Hs Hprev].
    apply Forall_cons in Hprev as [Hpx Hprev].
    destruct (IH x Hs) as (Hnd & Hsorted & Hin).
    simpl. case_decide as Hx.
    + subst x. split_and!; [done | done |].
      intros r. rewrite Hin, !elem_of_cons. tauto.
    + assert (∀ y, y ∈ x :: Py.drop_repeated_pairs x aux → Py.pair_le prev y)
        as Hle.
      { intros y Hy. apply Hin in Hy.
        apply elem_of_cons in Hy as [-> | Hy]; [done |].
        rewrite Forall_forall in Hprev. by apply Hprev. }
      split_and!.
      * apply NoDup_cons. split; [| done].
        rewrite Hin. intros Hmem.
        apply elem_of_cons in Hmem as [-> | Hmem]; [done |].
        apply StronglySorted_inv in Hs as [_ Hxs].
        rewrite Forall_forall in Hxs. specialize (Hxs _ Hmem).
        apply Hx. by apply (anti_symm Py.pair_le).
      * constructor; [done |]. by apply Forall_forall.
      * intros r. rewrite (elem_of_cons _ r prev), Hin, !elem_of_cons. tauto.
Qed.

Lemma unique_pairs_spec (c : list (Z * Z)) :
  NoDup (Py.unique_pairs c) ∧
  StronglySorted Py.pair_le (Py.unique_pairs c) ∧
  (∀ r, r ∈ Py.unique_pairs c ↔ r ∈ c).
Proof.
  unfold Py.unique_pairs.
  pose proof (StronglySorted_merge_sort Py.pair_le c) as Hs.
  pose proof (merge_sort_Permutation Py.pair_le c) as Hp.
  destruct (merge_sort Py.pair_le c) as [|x aux].
  - split_and!; [constructor | constructor |]. intros r. by rewrite <- Hp.
  - destruct (drop_repeated_pairs_sorted x aux Hs) as (Hnd & Hsorted & Hin).
    split_and!; [done | done |]. intros r. by rewrite Hin, Hp.
Qed.

Lemma elem_of_range (lo hi x : Z) : x ∈ Np.range lo hi ↔ lo ≤ x < hi.
Proof. unfold Np.range. rewrite elem_of_seqZ. lia. Qed.

Lemma NoDup_range (lo hi : Z) : NoDup (Np.range lo hi).
Proof. apply NoDup_seqZ. Qed.

(** ** All current dipoles *)

Lemma current_dipoles_small (self : ConfigManager) (N : Z) :
  nr_electrodes self = Some N → N < 2 →
  gen_all_current_dipoles self = (Throw AxisError, self).
Proof.
  intros HN Hlt. unfold gen_all_current_dipoles. rewrite HN.
  rewrite decide_True; [done |].
  rewrite (elem_of_nil_inv (Py.permutations2 (Np.range 1 (N + 1)))); [done |].
  intros [u v] Huv.
  apply elem_of_permutations2_nodup in Huv as (Hu & Hv & Hne);
    [| apply NoDup_range].
  apply elem_of_range in Hu, Hv. lia.
Qed.

Lemma current_dipoles_spec (self : ConfigManager) (N : Z) :
  nr_electrodes self = Some N → 2 ≤ N →
  ∃ AB,
    gen_all_current_dipoles self = (Return AB, self) ∧
    NoDup AB ∧
    StronglySorted Py.pair_le AB ∧
    ∀ a b, (a, b) ∈ AB ↔ 1 ≤ a ∧ a < b ∧ b ≤ N.
Proof.
  intros HN Hge. unfold gen_all_current_dipoles. rewrite HN.
  pose proof (elem_of_permutations2_nodup (Np.range 1 (N + 1))) as Hperm.
  rewrite decide_False.
  - eexists. split; [reflexivity |].
    destruct (unique_pairs_spec
                ((λ ab, (Z.min ab.1 ab.2, Z.max ab.1 ab.2))
                 <$> Py.permutations2 (Np.range 1 (N + 1))))
      as (Hnd & Hs & Hin).
    split_and!; [done | done |].
    intros a b. rewrite Hin, list_elem_of_fmap. split.
    + intros ([u v] & [= -> ->] & Huv). simpl.
      apply Hperm in Huv as (Hu & Hv & Hne); [| apply NoDup_range].
      apply elem_of_range in Hu, Hv. lia.
    + intros Hab. exists (a, b). simpl. split; [f_equal; lia |].
      apply Hperm; [apply NoDup_range |]. rewrite !elem_of_range. lia.
  - intros Hlen. apply nil_length_inv in Hlen.
    assert ((1, 2) ∈ Py.permutations2 (Np.range 1 (N + 1))) as H12.
    { apply Hperm; [apply NoDup_range |]. rewrite !elem_of_range. lia. }
    rewrite Hlen in H12. by apply elem_of_nil in H12.
Qed.

(** X17: [gen_all_current_dipoles] with N >= 2 electrodes returns every
    pair (a, b) with 1 <= a < b <= N exactly once, in ascending
    lexicographic order, and leaves the instance as it is; with fewer
    than two electrodes it raises, because the empty array of pairs is
    one-dimensional and has no axis 1 to sort along. *)
Theorem gen_all_current_dipoles_pairs (self : ConfigManager) (N : Z) :
  nr_electrodes self = Some N →
  (N < 2 → gen_all_current_dipoles self = (Throw AxisError, self)) ∧
  (2 ≤ N →
   ∃ AB,
     gen_all_current_dipoles self = (Return AB, self) ∧
     NoDup AB ∧
     StronglySorted Py.pair_le AB ∧
     ∀ a b, (a, b) ∈ AB ↔ 1 ≤ a ∧ a < b ∧ b ≤ N).
Proof.
  intros HN. split.
  - by apply current_dipoles_small.
  - by apply current_dipoles_spec.
Qed.

(** ** All voltages for given injections *)

Lemma range_lookup_nat (lo hi : Z) (k : Z) :
  0 ≤ k < hi - lo → Np.range lo hi !! Z.to_nat k = Some (lo + k).
Proof.
  intros Hk. rewrite range_lookup by lia. f_equal. lia.
Qed.

(** The potential electrodes left for an injection are the electrodes
    other than its two. *)
Lemma voltages_for_injection_rows (N : Z) (pq : Z * Z) :
  valid_injection N pq →
  ∃ rows,
    voltages_for_injection (Some N) pq = Ok rows ∧
    ∀ r, r ∈ rows ↔ ∃ m n, r = (pq.1, pq.2, m, n) ∧ admits N pq m n.
Proof.
  destruct pq as [p q]. unfold valid_injection, admits. simpl.
  intros (Hp & Hq & Hne). unfold voltages_for_injection. simpl.
  set (velecs := Np.range 1 (N + 1)).
  assert (length velecs = Z.to_nat N) as Hlen
    by (unfold velecs; rewrite range_length; lia).
  assert (velecs !! Z.to_nat (Z.max p q - 1) = Some (Z.max p q)) as Hmax.
  { unfold velecs. rewrite range_lookup_nat by lia. f_equal. lia. }
  assert (velecs !! Z.to_nat (Z.min p q - 1) = Some (Z.min p q)) as Hmin.
  { unfold velecs. rewrite range_lookup_nat by lia. f_equal. lia. }
  destruct (delete_nodup velecs _ _ (NoDup_range _ _) Hmax) as [Hnd1 Hin1].
  set (v1 := delete (Z.to_nat (Z.max p q - 1)) velecs) in *.
  assert (length v1 = (Z.to_nat N - 1)%nat) as Hlen1.
  { unfold v1. rewrite length_delete by eauto. lia. }
  assert (v1 !! Z.to_nat (Z.min p q - 1) = Some (Z.min p q)) as Hmin1.
  { unfold v1. rewrite list_lookup_delete_lt by lia. done. }
  destruct (delete_nodup v1 _ _ Hnd1 Hmin1) as [Hnd2 Hin2].
  unfold Py.del at 1. rewrite decide_True by lia. fold v1.
  unfold Py.del at 1. rewrite decide_True by lia.
  eexists. split; [reflexivity |].
  intros r. rewrite list_elem_of_fmap. split.
  - intros ([m n] & -> & Hmn). simpl.
    apply elem_of_permutations2_nodup in Hmn as (Hm & Hn & Hmn); [| done].
    apply Hin2 in Hm as [[Hm ?]%Hin1 ?].
    apply Hin2 in Hn as [[Hn ?]%Hin1 ?].
    unfold velecs in Hm, Hn. apply elem_of_range in Hm, Hn.
    exists m, n. split; [done |]. lia.
  - intros (m & n & -> & Hm & Hn & Hmn & Hrest). exists (m, n).
    split; [done |].
    apply elem_of_permutations2_nodup; [done |].
    rewrite !Hin2, !Hin1. unfold velecs. rewrite !elem_of_range. lia.
Qed.

Lemma all_quadpoles_rows (N : Z) (injections : list (Z * Z)) :
  Forall (valid_injection N) injections →
  ∃ rows,
    all_quadpoles (Some N) injections = Ok rows ∧
    ∀ r, r ∈ rows ↔
         ∃ pq m n, pq ∈ injections ∧ r = (pq.1, pq.2, m, n) ∧ admits N pq m n.
Proof.
  induction injections as [|pq injections IH]; intros Hvalid.
  - exists []. split; [done |]. intros r. split.
    + by intros ?%elem_of_nil.
    + by intros (pq & m & n & ?%elem_of_nil & _).
  - apply Forall_cons in Hvalid as [Hpq Hvalid].
    destruct (voltages_for_injection_rows N pq Hpq) as (rows & Hrows & Hin).
    destruct (IH Hvalid) as (rows' & Hrows' & Hin').
    exists (rows ++ rows'). split.
    + cbn [all_quadpoles]. by rewrite Hrows, Hrows'.
    + intros r. rewrite elem_of_app, Hin, Hin'. split.
      * intros [(m & n & -> & Hadm) | (pq' & m & n & Hpq' & -> & Hadm)].
        -- exists pq, m, n. split; [by left | done].
        -- exists pq', m, n. split; [by right | done].
      * intros (pq' & m & n & [-> | Hpq']%elem_of_cons & -> & Hadm).
        -- left. eauto.
        -- right. eauto 6.
Qed.

Lemma two_free_electrodes (N p q : Z) :
  4 ≤ N → ∃ m n, admits N (p, q) m n.
Proof.
  intros HN. unfold admits. simpl.
  destruct (decide (1 = p ∨ 1 = q)), (decide (2 = p ∨ 2 = q)),
    (decide (3 = p ∨ 3 = q));
    first [ exists 1, 2; lia | exists 1, 3; lia | exists 1, 4; lia
          | exists 2, 3; lia | exists 2, 4; lia | exists 3, 4; lia ].
Qed.

Lemma all_voltages_spec (self : ConfigManager) (N : Z)
    (injections : list (Z * Z)) :
  nr_electrodes self = Some N →
  4 ≤ N →
  injections ≠ [] →
  Forall (valid_injection N) injections →
  ∃ rows,
    gen_all_voltages_for_injections injections self
    = (Ok rows, set_configs (default [] (configs self) ++ rows) self) ∧
    NoDup rows ∧
    StronglySorted Np.row_le rows ∧
    ∀ r, r ∈ rows ↔
         ∃ pq m n, pq ∈ injections ∧ m < n ∧ admits N pq m n ∧
                   r = (Z.min pq.1 pq.2, Z.max pq.1 pq.2, m, n).
Proof.
  intros HN HN4 Hne Hvalid.
  destruct (all_quadpoles_rows N injections Hvalid) as (rows & Hrows & Hin).
  destruct (unique_spec (Np.sort_halves <$> rows)) as [Hnd Hin'].
  assert (rows ≠ []) as Hrows_ne.
  { destruct injections as [|[p q] injections]; [done |].
    destruct (two_free_electrodes N p q HN4) as (m & n & Hadm).
    intros Hnil. assert ((p, q, m, n) ∈ rows) as Hmem.
    { apply Hin. exists (p, q), m, n. split; [by left | done]. }
    rewrite Hnil in Hmem. by apply elem_of_nil in Hmem. }
  assert (Np.unique (Np.sort_halves <$> rows) ≠ []) as Hu_ne.
  { destruct rows as [|r rows]; [done |]. intros Hnil.
    assert (Np.sort_halves r ∈ Np.unique (Np.sort_halves <$> r :: rows)) as Hmem
      by (apply Hin'; by left).
    rewrite Hnil in Hmem. by apply elem_of_nil in Hmem. }
  exists (Np.unique (Np.sort_halves <$> rows)). split_and!.
  - unfold gen_all_voltages_for_injections. rewrite bind_get_self, HN, Hrows.
    destruct rows as [|r rows]; [done |].
    erewrite bind_ok by reflexivity. cbv beta iota.
    erewrite bind_ok.
    2:{ apply add_to_configs_appends. intros Hlen.
        by apply nil_length_inv in Hlen. }
    reflexivity.
  - done.
  - apply unique_sorted.
  - intros r. rewrite Hin', list_elem_of_fmap. split.
    + intros (r0 & -> & (pq & m & n & Hpq & -> & Hadm)%Hin).
      destruct pq as [p q]. unfold admits in Hadm. simpl in *.
      exists (p, q), (Z.min m n), (Z.max m n). split_and!; [done | lia | |].
      * unfold admits. simpl. lia.
      * reflexivity.
    + intros (pq & m & n & Hpq & Hlt & Hadm & ->).
      exists (pq.1, pq.2, m, n). split.
      * unfold Np.sort_halves, col0, col1, col2, col3. simpl.
        repeat f_equal; lia.
      * apply Hin. exists pq, m, n. done.
Qed.

(** X18: for a non-empty list of injections between different
    electrodes out of 1..N, N >= 4, [gen_all_voltages_for_injections]
    returns, in ascending lexicographic order and without repetition,
    exactly the rows (min(p, q), max(p, q), m, n) where (p, q) is one
    of the injections and m < n are two electrodes of 1..N other than
    p and q; the rows are appended to the stored configurations. *)
Theorem gen_all_voltages_rows (self : ConfigManager) (N : Z)
    (injections : list (Z * Z)) :
  nr_electrodes self = Some N →
  4 ≤ N →
  injections ≠ [] →
  Forall (valid_injection N) injections →
  ∃ rows,
    gen_all_voltages_for_injections injections self
    = (Ok rows, set_configs (default [] (configs self) ++ rows) self) ∧
    NoDup rows ∧
    StronglySorted Np.row_le rows ∧
    ∀ r, r ∈ rows ↔
         ∃ pq m n, pq ∈ injections ∧ m < n ∧ admits N pq m n ∧
                   r = (Z.min pq.1 pq.2, Z.max pq.1 pq.2, m, n).
Proof. apply all_voltages_spec. Qed.

Lemma all_quadpoles_out_of_range (N : Z) (pq : Z * Z)
    (injections : list (Z * Z)) :
  0 ≤ N → N < Z.max pq.1 pq.2 →
  all_quadpoles (Some N) (pq :: injections) = Raise IndexError.
Proof.
  intros HN Hmax. simpl. unfold voltages_for_injection.
  unfold Py.del at 1. rewrite range_length.
  rewrite decide_False by lia. rewrite decide_False by lia. done.
Qed.

(** X19: [gen_all_voltages_for_injections] raises, and leaves the
    instance as it was, for an empty list of injections, for a list
    whose first injection names an electrode above the electrode count,
    and without a known electrode count; whatever exception it raises,
    the instance is unchanged. *)
Theorem gen_all_voltages_errors (self : ConfigManager)
    (injections : list (Z * Z)) :
  gen_all_voltages_for_injections [] self = (Raise IndexError, self) ∧
  (∀ N pq, nr_electrodes self = Some N → 0 ≤ N → N < Z.max pq.1 pq.2 →
     gen_all_voltages_for_injections (pq :: injections) self
     = (Raise IndexError, self)) ∧
  (∀ pq, nr_electrodes self = None →
     gen_all_voltages_for_injections (pq :: injections) self
     = (Raise TypeError, self)) ∧
  (∀ e self',
     gen_all_voltages_for_injections injections self = (Raise e, self') →
     self' = self).
Proof.
  unfold gen_all_voltages_for_injections. split_and!.
  - by rewrite bind_get_self.
  - intros N pq HN HN0 Hmax. rewrite bind_get_self, HN.
    by rewrite all_quadpoles_out_of_range.
  - intros pq HN. by rewrite bind_get_self, HN.
  - intros e self'. rewrite bind_get_self.
    destruct (all_quadpoles (nr_electrodes self) injections) as [[|r rows]|e'].
    + intros [= _ <-]. done.
    + erewrite bind_ok by reflexivity. cbv beta iota.
      erewrite bind_ok.
      2:{ apply add_to_configs_appends. intros Hlen.
          apply nil_length_inv in Hlen.
          destruct (unique_spec (Np.sort_halves <$> r :: rows)) as [_ Hin].
          assert (Np.sort_halves r ∈ Np.unique (Np.sort_halves <$> r :: rows))
            as Hmem by (apply Hin; by left).
          rewrite Hlen in Hmem. by apply elem_of_nil in Hmem. }
      discriminate.
    + intros [= _ <-]. done.
Qed.

(** X20: the exhaustive generation.  With N >= 4 electrodes, feeding
    the result of [gen_all_current_dipoles] to
    [gen_all_voltages_for_injections] gives every quadrupole
    (a, b, m, n) with a < b and m < n out of 1..N whose two dipoles
    share no electrode, each exactly once, and appends them to the
    stored configurations. *)
Theorem exhaustive_quadrupoles (self : ConfigManager) (N : Z) :
  nr_electrodes self = Some N →
  4 ≤ N →
  ∃ AB rows,
    gen_all_current_dipoles self = (Return AB, self) ∧
    gen_all_voltages_for_injections AB self
    = (Ok rows, set_configs (default [] (configs self) ++ rows) self) ∧
    NoDup rows ∧
    ∀ a b m n,
      (a, b, m, n) ∈ rows ↔
      (1 ≤ a ∧ a < b ∧ b ≤ N) ∧ (1 ≤ m ∧ m < n ∧ n ≤ N) ∧
      a ≠ m ∧ a ≠ n ∧ b ≠ m ∧ b ≠ n.
Proof.
  intros HN HN4.
  destruct (current_dipoles_spec self N HN ltac:(lia)) as (AB & HAB & _ & _ & Hin).
  assert (AB ≠ []) as Hne.
  { intros Hnil. assert ((1, 2) ∈ AB) as H12 by (apply Hin; lia).
    rewrite Hnil in H12. by apply elem_of_nil in H12. }
  assert (Forall (valid_injection N) AB) as Hvalid.
  { apply Forall_forall. intros [a b] Hab%Hin.
    unfold valid_injection. simpl. lia. }
  destruct (all_voltages_spec self N AB HN HN4 Hne Hvalid)
    as (rows & Hrun & Hnd & _ & Hrows).
  exists AB, rows. split_and!; [done | done | done |].
  intros a b m n. rewrite Hrows. split.
  - intros ([p q] & m' & n' & Hpq%Hin & Hlt & Hadm & [= -> -> -> ->]).
    unfold admits in Hadm. simpl in *. lia.
  - intros (Hab & Hmn & Hdisj). exists (a, b), m, n. split_and!.
    + apply Hin. lia.
    + lia.
    + unfold admits. simpl. lia.
    + simpl. repeat f_equal; lia.
Qed.

(** * Instances of the statements on concrete inputs *)

(** The padded split of the store holding (1,2,3,4) and (3,4,1,2), with
    the iteration order of [elements]. *)
Lemma split_pad_aligned_witness :
  (∀ X : gset nat, elements X ≡ₚ elements X) ∧
  configs (set_configs [(1, 2, 3, 4); (3, 4, 1, 2)] (__init__ (Some 4)))
  = Some [(1, 2, 3, 4); (3, 4, 1, 2)] ∧
  ∃ normals reciprocals,
    split_into_normal_and_reciprocal elements true
      (set_configs [(1, 2, 3, 4); (3, 4, 1, 2)] (__init__ (Some 4)))
    = (Ok (normals, reciprocals),
       set_configs [(1, 2, 3, 4); (3, 4, 1, 2)] (__init__ (Some 4))) ∧
    length normals = length reciprocals ∧
    Forall2 (aligned [(1, 2, 3, 4); (3, 4, 1, 2)]) normals reciprocals.
Proof.
  split; [intros X; reflexivity |]. split; [reflexivity |].
  destruct (split_pad_aligned elements (λ X, reflexivity (elements X))
              (set_configs [(1, 2, 3, 4); (3, 4, 1, 2)] (__init__ (Some 4)))
              [(1, 2, 3, 4); (3, 4, 1, 2)] eq_refl)
    as (ns & rs & Hrun & Hlen & Hal & _).
  exists ns, rs. exact (conj Hrun (conj Hlen Hal)).
Defined.

(** Duplicate removal on a reordering of the three example rows. *)
Lemma remove_duplicates_distinct_witness :
  [(5, 6, 7, 8); (1, 2, 3, 4); (1, 2, 3, 4)]
  ≡ₚ [(1, 2, 3, 4); (1, 2, 3, 4); (5, 6, 7, 8)] ∧
  remove_duplicates (Some [(5, 6, 7, 8); (1, 2, 3, 4); (1, 2, 3, 4)]) (__init__ None)
  = (Ok (Some [(1, 2, 3, 4); (5, 6, 7, 8)]), __init__ None).
Proof.
  assert ([(5, 6, 7, 8); (1, 2, 3, 4); (1, 2, 3, 4)]
          ≡ₚ [(1, 2, 3, 4); (1, 2, 3, 4); (5, 6, 7, 8)]) as Hp
    by exact (Permutation_cons_append [(1, 2, 3, 4); (1, 2, 3, 4)] (5, 6, 7, 8)).
  split; [exact Hp |].
  destruct (remove_duplicates_distinct
              [(1, 2, 3, 4); (1, 2, 3, 4); (5, 6, 7, 8)] (__init__ None))
    as (u & _ & _ & _ & Hperm & _ & Hu).
  rewrite <- (Hu eq_refl). exact (Hperm _ Hp).
Defined.

(** A measurement file that declares three rows and holds two. *)
Lemma failed_import_keeps_state_witness :
  vf_count (mkVoltFile 3 [(10002, 40003, (3 # 2)%Q, 0%Q); (20003, 50004, 2%Q, 0%Q)])
  ≠ Z.of_nat
      (length (vf_rows
                 (mkVoltFile 3 [(10002, 40003, (3 # 2)%Q, 0%Q); (20003, 50004, 2%Q, 0%Q)]))) ∧
  ∃ e,
    load_crmod_volt
      (mkVoltFile 3 [(10002, 40003, (3 # 2)%Q, 0%Q); (20003, 50004, 2%Q, 0%Q)])
      (__init__ (Some 5))
    = (Raise e, __init__ (Some 5)) ∧
    ((2 ≤ 2)%nat → e = CountMismatch).
Proof.
  split; [simpl; lia |].
  apply (proj1 (proj2 (failed_import_keeps_state (__init__ (Some 5))))
           (mkVoltFile 3 [(10002, 40003, (3 # 2)%Q, 0%Q); (20003, 50004, 2%Q, 0%Q)])).
  simpl. lia.
Defined.

(** Two measurement sets added after a Wenner generation. *)
Lemma measurement_ids_sequential_witness :
  (0 < 1)%nat ∧
  returned_ids
    [call_gen_wenner 3; call_add_measurements (Array1 [1; 2]%Q);
     call_add_measurements (Array1 [3; 4]%Q)] (__init__ (Some 11)) !! 0%nat = Some 0 ∧
  returned_ids
    [call_gen_wenner 3; call_add_measurements (Array1 [1; 2]%Q);
     call_add_measurements (Array1 [3; 4]%Q)] (__init__ (Some 11)) !! 1%nat = Some 1 ∧
  0 < 1.
Proof.
  assert (returned_ids
            [call_gen_wenner 3; call_add_measurements (Array1 [1; 2]%Q);
             call_add_measurements (Array1 [3; 4]%Q)] (__init__ (Some 11))
          = [0; 1]) as Hids by (vm_compute; reflexivity).
  split; [lia |]. split; [by rewrite Hids |]. split; [by rewrite Hids |].
  apply (proj1 (proj2 (measurement_ids_sequential (Some 11)
           [call_gen_wenner 3; call_add_measurements (Array1 [1; 2]%Q);
            call_add_measurements (Array1 [3; 4]%Q)])) 0%nat 1%nat 0 1).
  - lia.
  - by rewrite Hids.
  - by rewrite Hids.
Defined.


(** Wenner configurations for a = 1 and eight electrodes. *)
Lemma gen_wenner_rows_witness :
  nr_electrodes (__init__ (Some 8)) = Some 8 ∧
  3 * 1 + 1 ≤ 8 ∧
  ∃ rows,
    gen_wenner 1 (__init__ (Some 8))
    = (Ok rows,
       set_configs (default [] (configs (__init__ (Some 8))) ++ rows) (__init__ (Some 8))) ∧
    rows = [(1, 2, 3, 4); (2, 3, 4, 5); (3, 4, 5, 6); (4, 5, 6, 7); (5, 6, 7, 8)].
Proof.
  split; [reflexivity |]. split; [lia |].
  destruct (gen_wenner_rows (__init__ (Some 8)) 8 1 eq_refl ltac:(lia))
    as (rows & Hrun & _ & _ & Hrows).
  exists rows. exact (conj Hrun (Hrows eq_refl eq_refl)).
Defined.

(** Two stored rows are counted as two. *)
Lemma nr_of_configs_counts_witness :
  configs (set_configs [(1, 2, 3, 4); (2, 3, 4, 5)] (__init__ (Some 5)))
  = Some [(1, 2, 3, 4); (2, 3, 4, 5)] ∧
  nr_of_configs (set_configs [(1, 2, 3, 4); (2, 3, 4, 5)] (__init__ (Some 5)))
  = (Ok 2%nat, set_configs [(1, 2, 3, 4); (2, 3, 4, 5)] (__init__ (Some 5))).
Proof.
  split; [reflexivity |].
  exact (proj2 (proj2 (nr_of_configs_counts
           (set_configs [(1, 2, 3, 4); (2, 3, 4, 5)] (__init__ (Some 5)))))
           [(1, 2, 3, 4); (2, 3, 4, 5)] eq_refl).
Defined.

(** An empty batch added to a store of one row. *)
Lemma add_to_configs_empty_witness :
  length (@nil row) = 0%nat ∧
  add_to_configs [] (set_configs [(1, 2, 3, 4)] (__init__ (Some 4)))
  = (Ok None, set_configs [(1, 2, 3, 4)] (__init__ (Some 4))).
Proof.
  split; [reflexivity |].
  apply (add_to_configs_empty [] (set_configs [(1, 2, 3, 4)] (__init__ (Some 4)))).
  reflexivity.
Defined.

(** ** Instances of the further properties *)

Ltac each_row tac := repeat (constructor; [tac |]); constructor.

(** Injectivity at a one-row array. *)
Lemma get_crmod_abmn_injective_witness :
  Forall crmod_range [(1, 2, 3, 4)] ∧
  _get_crmod_abmn [(1, 2, 3, 4)] = [(10002, 30004)] ∧
  [(1, 2, 3, 4)] = [(1, 2, 3, 4)].
Proof.
  assert (Forall crmod_range [(1, 2, 3, 4)]) as Hr
    by (each_row ltac:(unfold crmod_range, col0, col1, col2, col3; simpl; lia)).
  split; [exact Hr |]. split; [reflexivity |].
  exact (get_crmod_abmn_injective [(1, 2, 3, 4)] [(1, 2, 3, 4)] Hr Hr eq_refl).
Defined.

(** Two configurations written and read back. *)
Lemma write_load_config_swaps_witness :
  configs (set_configs [(1, 2, 3, 4); (2, 3, 4, 5)] (__init__ (Some 5)))
  = Some [(1, 2, 3, 4); (2, 3, 4, 5)] ∧
  (2 ≤ length [(1, 2, 3, 4); (2, 3, 4, 5)]%Z)%nat ∧
  Forall crmod_range [(1, 2, 3, 4); (2, 3, 4, 5)] ∧
  ∃ file,
    write_crmod_config (set_configs [(1, 2, 3, 4); (2, 3, 4, 5)] (__init__ (Some 5)))
    = (Ok file, set_configs [(1, 2, 3, 4); (2, 3, 4, 5)] (__init__ (Some 5))) ∧
    load_crmod_config file
      (set_configs [(1, 2, 3, 4); (2, 3, 4, 5)] (__init__ (Some 5)))
    = (Ok tt, set_configs [(2, 1, 4, 3); (3, 2, 5, 4)] (__init__ (Some 5))).
Proof.
  assert (Forall crmod_range [(1, 2, 3, 4); (2, 3, 4, 5)]) as Hr
    by (each_row ltac:(unfold crmod_range, col0, col1, col2, col3; simpl; lia)).
  split; [reflexivity |]. split; [simpl; lia |]. split; [exact Hr |].
  destruct (write_load_config_swaps
              (set_configs [(1, 2, 3, 4); (2, 3, 4, 5)] (__init__ (Some 5)))
              [(1, 2, 3, 4); (2, 3, 4, 5)] eq_refl ltac:(simpl; lia) Hr)
    as (file & file' & Hw & Hl & _).
  exists file. exact (conj Hw Hl).
Defined.

(** One configuration written and read back. *)
Lemma write_load_single_config_fails_witness :
  configs (set_configs [(1, 2, 3, 4)] (__init__ (Some 4))) = Some [(1, 2, 3, 4)] ∧
  ∃ file,
    write_crmod_config (set_configs [(1, 2, 3, 4)] (__init__ (Some 4)))
    = (Ok file, set_configs [(1, 2, 3, 4)] (__init__ (Some 4))) ∧
    load_crmod_config file (set_configs [(1, 2, 3, 4)] (__init__ (Some 4)))
    = (Raise CountMismatch, set_configs [(1, 2, 3, 4)] (__init__ (Some 4))).
Proof.
  split; [reflexivity |].
  exact (write_load_single_config_fails
           (set_configs [(1, 2, 3, 4)] (__init__ (Some 4))) (1, 2, 3, 4) eq_refl).
Defined.

(** A file of two rows that declares two rows. *)
Lemma load_crmod_config_succeeds_iff_witness :
  (2 ≤ length (cf_rows (mkConfigFile 2 [(10002, 30004); (20003, 40005)])%Z))%nat ∧
  cf_count (mkConfigFile 2 [(10002, 30004); (20003, 40005)])
  = Z.of_nat (length (cf_rows (mkConfigFile 2 [(10002, 30004); (20003, 40005)]))) ∧
  ∃ self',
    load_crmod_config (mkConfigFile 2 [(10002, 30004); (20003, 40005)])
      (__init__ None) = (Ok tt, self').
Proof.
  split; [simpl; lia |]. split; [reflexivity |].
  apply (proj2 (proj1 (load_crmod_config_succeeds_iff
                         (mkConfigFile 2 [(10002, 30004); (20003, 40005)])
                         (__init__ None)))).
  split; [simpl; lia | reflexivity].
Defined.

(** A vector of two values added to two stored configurations. *)
Lemma add_measurements_lookup_witness :
  configs (set_configs [(1, 2, 3, 4); (2, 3, 4, 5)] (__init__ (Some 5)))
  = Some [(1, 2, 3, 4); (2, 3, 4, 5)] ∧
  length [1; 2]%Q = length [(1, 2, 3, 4); (2, 3, 4, 5)] ∧
  ∃ self',
    add_measurements (Array1 [1; 2]%Q)
      (set_configs [(1, 2, 3, 4); (2, 3, 4, 5)] (__init__ (Some 5)))
    = (Ok (One 0), self') ∧
    measurements self' !! 0 = Some [1; 2]%Q.
Proof.
  split; [reflexivity |]. split; [reflexivity |].
  destruct (add_measurements_lookup [1; 2]%Q
              (set_configs [(1, 2, 3, 4); (2, 3, 4, 5)] (__init__ (Some 5)))
              [(1, 2, 3, 4); (2, 3, 4, 5)] eq_refl eq_refl)
    as (self' & Hrun & Hlookup & _).
  exists self'. exact (conj Hrun Hlookup).
Defined.

(** A measurement file of two rows loaded into a new instance. *)
Lemma load_crmod_volt_stores_witness :
  vf_count (mkVoltFile 2 [(10002, 30004, (3 # 2)%Q, 0%Q); (20003, 40005, 2%Q, 1%Q)])
  = Z.of_nat
      (length (vf_rows (mkVoltFile 2 [(10002, 30004, (3 # 2)%Q, 0%Q);
                                      (20003, 40005, 2%Q, 1%Q)]))) ∧
  (2 ≤ length (vf_rows (mkVoltFile 2 [(10002, 30004, (3 # 2)%Q, 0%Q);
                                      (20003, 40005, 2%Q, 1%Q)])%Z))%nat ∧
  configs (__init__ None) = None ∧
  ∃ self',
    load_crmod_volt
      (mkVoltFile 2 [(10002, 30004, (3 # 2)%Q, 0%Q); (20003, 40005, 2%Q, 1%Q)])
      (__init__ None)
    = (Ok [One 0; One 1], self') ∧
    measurements self' !! 0 = Some [(3 # 2)%Q; 2%Q] ∧
    measurements self' !! 1 = Some [0%Q; 1%Q].
Proof.
  split; [reflexivity |]. split; [simpl; lia |]. split; [reflexivity |].
  destruct (load_crmod_volt_stores
              (mkVoltFile 2 [(10002, 30004, (3 # 2)%Q, 0%Q);
                             (20003, 40005, 2%Q, 1%Q)])
              (__init__ None) eq_refl ltac:(simpl; lia) (or_introl eq_refl))
    as (self' & Hrun & _ & Hmag & Hpha & _).
  exists self'. exact (conj Hrun (conj Hmag Hpha)).
Defined.

(** A measurement set survives a further call. *)
Lemma measurements_never_overwritten_witness :
  measurements
    (run_calls [call_gen_wenner 3; call_add_measurements (Array1 [1; 2]%Q)]
       (__init__ (Some 11))) !! 0 = Some [1; 2]%Q ∧
  measurements
    (run_calls ([call_gen_wenner 3; call_add_measurements (Array1 [1; 2]%Q)]
                ++ [call_add_measurements (Array1 [3; 4]%Q)])
       (__init__ (Some 11))) !! 0 = Some [1; 2]%Q.
Proof.
  assert (measurements
            (run_calls [call_gen_wenner 3; call_add_measurements (Array1 [1; 2]%Q)]
               (__init__ (Some 11))) !! 0 = Some [1; 2]%Q) as Hnow
    by (vm_compute; reflexivity).
  split; [exact Hnow |].
  exact (measurements_never_overwritten (Some 11)
           [call_gen_wenner 3; call_add_measurements (Array1 [1; 2]%Q)]
           [call_add_measurements (Array1 [3; 4]%Q)] 0 [1; 2]%Q Hnow).
Defined.

(** Two batches of one row each. *)
Lemma add_to_configs_batches_witness :
  [(1, 2, 3, 4)] ++ [(2, 3, 4, 5)] ≠ [] ∧
  configs (add_to_configs ([(1, 2, 3, 4)] ++ [(2, 3, 4, 5)]) (__init__ None)).2
  = Some (default [] (configs (__init__ None)) ++
          [(1, 2, 3, 4)] ++ [(2, 3, 4, 5)]).
Proof.
  assert ([(1, 2, 3, 4)] ++ [(2, 3, 4, 5)] ≠ @nil row) as Hne by discriminate.
  split; [exact Hne |].
  exact (proj2 (add_to_configs_batches [(1, 2, 3, 4)] [(2, 3, 4, 5)]
                  (__init__ None)) Hne).
Defined.

(** Three stored rows, two of them equal, deduplicated in place. *)
Lemma remove_duplicates_in_place_witness :
  configs (set_configs [(5, 6, 7, 8); (1, 2, 3, 4); (1, 2, 3, 4)] (__init__ None))
  = Some [(5, 6, 7, 8); (1, 2, 3, 4); (1, 2, 3, 4)] ∧
  ∃ u,
    remove_duplicates None
      (set_configs [(5, 6, 7, 8); (1, 2, 3, 4); (1, 2, 3, 4)] (__init__ None))
    = (Ok None,
       set_configs u
         (set_configs [(5, 6, 7, 8); (1, 2, 3, 4); (1, 2, 3, 4)] (__init__ None))) ∧
    NoDup u ∧ StronglySorted Np.row_le u.
Proof.
  split; [reflexivity |].
  destruct (proj2 (remove_duplicates_in_place
                     (set_configs [(5, 6, 7, 8); (1, 2, 3, 4); (1, 2, 3, 4)]
                        (__init__ None)))
              [(5, 6, 7, 8); (1, 2, 3, 4); (1, 2, 3, 4)] eq_refl)
    as (u & Hrun & Hnd & _ & Hs & _).
  exists u. exact (conj Hrun (conj Hnd Hs)).
Defined.

(** The unpadded split of a reciprocal row followed by its normal row. *)
Lemma split_normals_in_order_witness :
  configs (set_configs [(3, 4, 1, 2); (1, 2, 3, 4)] (__init__ (Some 4)))
  = Some [(3, 4, 1, 2); (1, 2, 3, 4)] ∧
  ∃ normals reciprocals (k : nat),
    split_into_normal_and_reciprocal elements false
      (set_configs [(3, 4, 1, 2); (1, 2, 3, 4)] (__init__ (Some 4)))
    = (Ok (normals, reciprocals),
       set_configs [(3, 4, 1, 2); (1, 2, 3, 4)] (__init__ (Some 4))) ∧
    normals
    = (Row <$> filter is_normal [(3, 4, 1, 2); (1, 2, 3, 4)])
      ++ replicate k NaNRow ∧
    (false = false → k = 0%nat).
Proof.
  split; [reflexivity |].
  exact (proj2 (split_normals_in_order elements false
                  (set_configs [(3, 4, 1, 2); (1, 2, 3, 4)] (__init__ (Some 4))))
           [(3, 4, 1, 2); (1, 2, 3, 4)] eq_refl).
Defined.


(** Wenner configurations for a = 1 and eight electrodes are in range. *)
Lemma gen_wenner_in_range_witness :
  nr_electrodes (__init__ (Some 8)) = Some 8 ∧
  0 ≤ 1 ∧
  ∃ rows,
    gen_wenner 1 (__init__ (Some 8))
    = (Ok rows, (add_to_configs rows (__init__ (Some 8))).2) ∧
    Forall (λ r, in_range 8 r ∧
                 col0 r ≤ col1 r ∧ col1 r ≤ col2 r ∧ col2 r ≤ col3 r) rows.
Proof.
  split; [reflexivity |]. split; [lia |].
  destruct (proj2 (gen_wenner_in_range (__init__ (Some 8)) 1) 8
              eq_refl ltac:(lia))
    as (rows & Hrun & Hrange & _).
  exists rows. exact (conj Hrun Hrange).
Defined.

(** Gradient configurations for six electrodes and skip = 3. *)
Lemma gen_gradient_nested_witness :
  nr_electrodes (__init__ (Some 6)) = Some 6 ∧
  0 < 1 ∧ 0 ≤ 0 ∧
  (gen_gradient 3 1 0 1 (__init__ (Some 6)) = (Return None, __init__ (Some 6)) ∨
   ∃ quadpoles,
     quadpoles ≠ [] ∧
     gen_gradient 3 1 0 1 (__init__ (Some 6))
     = (Return (Some quadpoles),
        set_configs (default [] (configs (__init__ (Some 6))) ++ quadpoles)
          (__init__ (Some 6))) ∧
     Forall (λ r, nested 6 r ∧ col1 r = col0 r + 3 + 1 ∧
                  col3 r = col2 r + 0 + 1) quadpoles).
Proof.
  split; [reflexivity |]. split; [lia |]. split; [lia |].
  exact (gen_gradient_nested (__init__ (Some 6)) 6 3 1 0 1
           eq_refl ltac:(lia) ltac:(lia) ltac:(lia)).
Defined.

(** A zero [vstep] with six electrodes and skip = 3. *)
Lemma gen_gradient_errors_witness :
  nr_electrodes (__init__ (Some 6)) = Some 6 ∧
  0 < 1 ∧ 1 < 6 - 3 ∧
  gen_gradient 3 1 0 0 (__init__ (Some 6)) = (Throw ValueError, __init__ (Some 6)).
Proof.
  split; [reflexivity |]. split; [lia |]. split; [lia |].
  exact (proj2 (proj2 (gen_gradient_errors (__init__ (Some 6)) 3 1 0 0)) 6
           eq_refl ltac:(lia) ltac:(lia)).
Defined.

(** The docstring call [gen_dipole_dipole(skipc=0)] with ten
    electrodes. *)
Lemma gen_dipole_dipole_rows_witness :
  (@None Z = Some 10 ∨ (@None Z = None ∧ nr_electrodes (__init__ (Some 10)) = Some 10)) ∧
  0 ≤ 0 ∧ 0 ≤ default 0 None ∧ 0 < 1 ∧
  ∃ rows,
    gen_dipole_dipole_configs 0 None 1 1 10 false 0 None (__init__ (Some 10))
    = Return rows ∧
    Forall (λ r, in_range 10 r ∧ col1 r = col0 r + 0 + 1 ∧
                 col3 r = col2 r + default 0 None + 1 ∧ separated r) rows ∧
    (rows ≠ [] →
     gen_dipole_dipole 0 None 1 1 10 false 0 None (__init__ (Some 10))
     = Generated rows
         (set_configs (default [] (configs (__init__ (Some 10))) ++ rows)
            (__init__ (Some 10)))) ∧
    (rows = [] → ∀ c, configs (__init__ (Some 10)) = Some c →
     gen_dipole_dipole 0 None 1 1 10 false 0 None (__init__ (Some 10))
     = Failed ValueError (__init__ (Some 10))).
Proof.
  split; [right; split; reflexivity |].
  split; [lia |]. split; [simpl; lia |]. split; [lia |].
  exact (gen_dipole_dipole_rows 0 None 1 1 10 false 0 None (__init__ (Some 10)) 10
           (or_intror (conj eq_refl eq_refl))
           ltac:(lia) ltac:(simpl; lia) ltac:(lia) ltac:(lia) ltac:(lia)).
Defined.

(** At most two potential dipoles per side with nine electrodes. *)
Lemma gen_dipole_dipole_cap_witness :
  (Some 9 = Some 9 ∨ (Some 9 = None ∧ nr_electrodes (__init__ None) = Some 9)) ∧
  0 ≤ 0 ∧ 0 ≤ default 0 (Some 0) ∧ 0 < 2 ∧ 0 < 1 ∧
  ∃ rows,
    gen_dipole_dipole_configs 0 (Some 0) 2 1 2 true 0 (Some 9) (__init__ None)
    = Return rows ∧
    Z.of_nat (length (filter (λ r, col0 r = 5 ∧ col1 r < col2 r) rows))
    ≤ Z.max 0 2 ∧
    Z.of_nat (length (filter (λ r, col0 r = 5 ∧ col3 r < col0 r) rows))
    ≤ Z.max 0 2.
Proof.
  split; [left; reflexivity |].
  split; [lia |]. split; [simpl; lia |]. split; [lia |]. split; [lia |].
  destruct (gen_dipole_dipole_cap 0 (Some 0) 2 1 2 true 0 (Some 9) (__init__ None) 9
              (or_introl eq_refl)
              ltac:(lia) ltac:(simpl; lia) ltac:(lia) ltac:(lia) ltac:(lia))
    as (rows & Hrun & Hcap & _).
  exists rows. exact (conj Hrun (Hcap 5)).
Defined.

(** All current dipoles of four electrodes. *)
Lemma gen_all_current_dipoles_pairs_witness :
  nr_electrodes (__init__ (Some 4)) = Some 4 ∧
  2 ≤ 4 ∧
  ∃ AB,
    gen_all_current_dipoles (__init__ (Some 4)) = (Return AB, __init__ (Some 4)) ∧
    NoDup AB ∧
    ∀ a b, (a, b) ∈ AB ↔ 1 ≤ a ∧ a < b ∧ b ≤ 4.
Proof.
  split; [reflexivity |]. split; [lia |].
  destruct (proj2 (gen_all_current_dipoles_pairs (__init__ (Some 4)) 4 eq_refl)
              ltac:(lia))
    as (AB & Hrun & Hnd & _ & Hin).
  exists AB. exact (conj Hrun (conj Hnd Hin)).
Defined.

(** All voltages for the injection (2, 1) with four electrodes. *)
Lemma gen_all_voltages_rows_witness :
  nr_electrodes (__init__ (Some 4)) = Some 4 ∧
  4 ≤ 4 ∧
  [(2, 1)] ≠ [] ∧
  Forall (valid_injection 4) [(2, 1)] ∧
  ∃ rows,
    gen_all_voltages_for_injections [(2, 1)] (__init__ (Some 4))
    = (Ok rows,
       set_configs (default [] (configs (__init__ (Some 4))) ++ rows)
         (__init__ (Some 4))) ∧
    NoDup rows.
Proof.
  assert ([(2, 1)] ≠ @nil (Z * Z)) as Hne by discriminate.
  assert (Forall (valid_injection 4) [(2, 1)]) as Hvalid
    by (each_row ltac:(unfold valid_injection; simpl; lia)).
  split; [reflexivity |]. split; [lia |]. split; [exact Hne |].
  split; [exact Hvalid |].
  destruct (gen_all_voltages_rows (__init__ (Some 4)) 4 [(2, 1)]
              eq_refl ltac:(lia) Hne Hvalid)
    as (rows & Hrun & Hnd & _).
  exists rows. exact (conj Hrun Hnd).
Defined.

(** An injection that names electrode 5 of 4. *)
Lemma gen_all_voltages_errors_witness :
  nr_electrodes (__init__ (Some 4)) = Some 4 ∧
  0 ≤ 4 ∧ 4 < Z.max (1, 5).1 (1, 5).2 ∧
  gen_all_voltages_for_injections [(1, 5)] (__init__ (Some 4))
  = (Raise IndexError, __init__ (Some 4)).
Proof.
  split; [reflexivity |]. split; [lia |]. split; [simpl; lia |].
  exact (proj1 (proj2 (gen_all_voltages_errors (__init__ (Some 4)) []))
           4 (1, 5) eq_refl ltac:(lia) ltac:(simpl; lia)).
Defined.

(** The exhaustive quadrupoles of four electrodes. *)
Lemma exhaustive_quadrupoles_witness :
  nr_electrodes (__init__ (Some 4)) = Some 4 ∧
  4 ≤ 4 ∧
  ∃ AB rows,
    gen_all_current_dipoles (__init__ (Some 4)) = (Return AB, __init__ (Some 4)) ∧
    gen_all_voltages_for_injections AB (__init__ (Some 4))
    = (Ok rows,
       set_configs (default [] (configs (__init__ (Some 4))) ++ rows)
         (__init__ (Some 4))) ∧
    NoDup rows.
Proof.
  split; [reflexivity |]. split; [lia |].
  destruct (exhaustive_quadrupoles (__init__ (Some 4)) 4 eq_refl ltac:(lia))
    as (AB & rows & Hcur & Hrun & Hnd & _).
  exists AB, rows. exact (conj Hcur (conj Hrun Hnd)).
Defined.
